(** * useFixedSizeList: a list virtualizer

    A shallow embedding of [src/hooks/useFixedSizeList.ts].

    Conventions of the embedding.
    - Pixel quantities (heights, offsets, scroll positions) and indices are
      integers, [Z], and their sums are exact, as those of the code are for
      integers within the safe range ([safeInteger]).  [itemsCount] is a
      [nat]: it sizes [Array(itemsCount)], which is taken to succeed
      ([validArrayLength]), and bounds the [for] loop.
    - [Key = string | number] is used only to address the measurement cache,
      a plain object; a key is modelled by the property name it selects,
      a [string].  The cache is a [gmap string Z]: a property holds a
      number exactly when the key is in the map.
    - Exceptions are explicit: a computation that can throw returns [Exc].
    - React state is passed explicitly ([HookState]); the ref created by
      [useLatest] is a field of that state, and DOM calls made by the
      measurement callback are recorded as a list of [Effect]s, in program
      order.
    - The [isScrolling] flag and its timer are not part of the model. *)

From stdpp Require Import base option list gmap strings pretty.
From Stdlib Require Import ZArith Lia Ascii.

Local Open Scope Z_scope.

(** ** Exceptions *)

Inductive JsError : Type :=
  | ConfigError   (* the [Error] thrown by [validateProps] *)
  | TypeError.    (* calling [undefined], reading a property of [undefined] *)

Inductive Exc (A : Type) : Type :=
  | Ok (a : A)
  | Throw (e : JsError).
Arguments Ok {A} a.
Arguments Throw {A} e.

#[global] Instance Exc_ret : MRet Exc := fun A a => Ok a.
#[global] Instance Exc_bind : MBind Exc := fun A B f m =>
  match m with
  | Ok a => f a
  | Throw e => Throw e
  end.

(** ** Rows and the loop of the range calculator *)

Abbreviation Key := string.

Record Row : Type := mkRow {
  key : Key;
  index : Z;
  height : Z;
  offsetTop : Z;
}.

(** The variables the [for] loop of the memo updates. [allRows] is filled at
    [allRows[index]] for [index = 0, 1, ...] in this order, so it is kept as
    the list of the rows written so far. *)
Record LoopState : Type := mkLoopState {
  ls_totalHeight : Z;
  ls_startIndex : Z;
  ls_endIndex : Z;
  ls_allRows : list Row;
}.

Definition loopInit : LoopState :=
  {| ls_totalHeight := 0; ls_startIndex := -1; ls_endIndex := -1;
     ls_allRows := [] |}.

(** One iteration of the loop body, once [getItemHeight(index)] has
    returned [h]. *)
Definition loopBody (itemsCount : nat) (getItemKey : Z → Key)
    (overscan rangeStart rangeEnd : Z)
    (index : Z) (h : Z) (st : LoopState) : LoopState :=
  let row :=
    {| key := getItemKey index; index := index; height := h;
       offsetTop := ls_totalHeight st |} in
  let totalHeight := ls_totalHeight st + height row in
  let startIndex :=
    if (ls_startIndex st =? -1) && (offsetTop row + height row >? rangeStart)
    then Z.max 0 (index - overscan)
    else ls_startIndex st in
  let endIndex :=
    if (ls_endIndex st =? -1) && (offsetTop row + height row >=? rangeEnd)
    then Z.min (Z.of_nat itemsCount - 1) (index + overscan)
    else ls_endIndex st in
  {| ls_totalHeight := totalHeight; ls_startIndex := startIndex;
     ls_endIndex := endIndex; ls_allRows := ls_allRows st ++ [row] |}.

(** [for (let index = ...; index < itemsCount; index++)] with [remaining]
    iterations left; the height lookup may throw. *)
Fixpoint forLoop (body : Z → Z → LoopState → LoopState)
    (getItemHeight : Z → Exc Z)
    (remaining : nat) (index : Z) (st : LoopState) : Exc LoopState :=
  match remaining with
  | O => Ok st
  | S remaining' =>
      h ← getItemHeight index;
      forLoop body getItemHeight remaining' (index + 1) (body index h st)
  end.

(** The same loop for a height lookup that never throws. *)
Fixpoint forLoopPure (body : Z → Z → LoopState → LoopState)
    (getItemHeight : Z → Z)
    (remaining : nat) (index : Z) (st : LoopState) : LoopState :=
  match remaining with
  | O => st
  | S remaining' =>
      forLoopPure body getItemHeight remaining' (index + 1)
        (body index (getItemHeight index) st)
  end.

(** [Array.prototype.slice(start, end)]: a negative bound counts from the
    end, both bounds are clamped to the length. *)
Definition slice {A : Type} (l : list A) (start end_ : Z) : list A :=
  let len := Z.of_nat (length l) in
  let k := if start <? 0 then Z.max (len + start) 0 else Z.min start len in
  let final := if end_ <? 0 then Z.max (len + end_) 0 else Z.min end_ len in
  take (Z.to_nat (final - k)) (drop (Z.to_nat k) l).

Record MemoResult : Type := mkMemoResult {
  virtualItems : list Row;
  startIndex : Z;
  endIndex : Z;
  allItems : list Row;
  totalHeight : Z;
}.

(** What the memo does after the loop: slice and pack. *)
Definition memoFinish (st : LoopState) : MemoResult :=
  {| virtualItems :=
       slice (ls_allRows st) (ls_startIndex st) (ls_endIndex st + 1);
     startIndex := ls_startIndex st;
     endIndex := ls_endIndex st;
     allItems := ls_allRows st;
     totalHeight := ls_totalHeight st |}.

(** The body of the [useMemo] callback, from [const rangeStart] on, for a
    given [getItemHeight]. *)
Definition memoBody (itemsCount : nat) (getItemKey : Z → Key)
    (overscan scrollTop listHeight : Z)
    (getItemHeight : Z → Exc Z) : Exc MemoResult :=
  let rangeStart := scrollTop in
  let rangeEnd := scrollTop + listHeight in
  st ← forLoop (loopBody itemsCount getItemKey overscan rangeStart rangeEnd)
         getItemHeight itemsCount 0 loopInit;
  mret (memoFinish st).

(** The range calculator for a total height lookup. *)
Definition rangeCalc (itemsCount : nat) (getItemKey : Z → Key)
    (overscan scrollTop listHeight : Z)
    (getItemHeight : Z → Z) : MemoResult :=
  let rangeStart := scrollTop in
  let rangeEnd := scrollTop + listHeight in
  memoFinish
    (forLoopPure (loopBody itemsCount getItemKey overscan rangeStart rangeEnd)
       getItemHeight itemsCount 0 loopInit).

(** ** The hook's props and the height lookup *)

Record Props : Type := mkProps {
  itemsCount : nat;
  itemHeight : option (Z → Z);
  estimateItemHeight : option (Z → Z);
  getItemKey : Z → Key;
  overscan : option Z;
  scrollingDelay : option Z;
  (** [getScrollElement()] returns an element ([true]) or [null]. *)
  getScrollElement : bool;
}.

Definition DEFAULT_OVERSCAN : Z := 3.
Definition DEFAULT_SCROLLING_DELAY : Z := 150.

(** [!itemsCount && !estimateItemHeight]: the test reads [itemsCount], the
    message it throws with names [itemHeight]. *)
Definition validateProps (props : Props) : Exc unit :=
  if bool_decide (itemsCount props = 0%nat)
     && bool_decide (estimateItemHeight props = None)
  then Throw ConfigError
  else Ok ().

(** [getItemHeight] of the memo. [estimateItemHeight!(index)] is a call of
    [undefined] when the prop is absent. *)
Definition getItemHeight (props : Props) (measurementCache : gmap string Z)
    (index : Z) : Exc Z :=
  match itemHeight props with
  | Some f => Ok (f index)
  | None =>
      let key := getItemKey props index in
      match measurementCache !! key with
      | Some h => Ok h
      | None =>
          match estimateItemHeight props with
          | Some f => Ok (f index)
          | None => Throw TypeError
          end
      end
  end.

(** The [useMemo] callback of the hook. *)
Definition useMemoBody (props : Props) (measurementCache : gmap string Z)
    (scrollTop listHeight : Z) : Exc MemoResult :=
  memoBody (itemsCount props) (getItemKey props)
    (default DEFAULT_OVERSCAN (overscan props)) scrollTop listHeight
    (getItemHeight props measurementCache).

(** The height lookup when one of the two height props is there. *)
Definition resolvedHeight (props : Props) (measurementCache : gmap string Z)
    (index : Z) : Z :=
  match itemHeight props with
  | Some f => f index
  | None =>
      match measurementCache !! getItemKey props index with
      | Some h => h
      | None => default (fun _ => 0) (estimateItemHeight props) index
      end
  end.

(** ** The measurement callback *)

Record Element : Type := mkElement {
  el_id : nat;                     (* identity of the DOM node *)
  isConnected : bool;
  data_index : option string;      (* [getAttribute('data-index')] *)
  rect_height : Z;                 (* [getBoundingClientRect().height] *)
}.

(** A [ResizeObserverEntry]: [borderBoxSize[0]?.blockSize]. *)
Record ResizeObserverEntry : Type := mkEntry {
  blockSize : option Z;
}.

(** What the callback does to the outside, in program order. *)
Inductive Effect : Type :=
  | Unobserve (el : nat)
  | Observe (el : nat)
  | ConsoleError
  | ScrollBy (x y : Z)
  | SetMeasurementCache (k : Key) (h : Z).

Definition isCacheWrite (e : Effect) : bool :=
  match e with SetMeasurementCache _ _ => true | _ => false end.

Definition isScrollAdjust (e : Effect) : bool :=
  match e with ScrollBy _ _ => true | _ => false end.

(** [parseInt(s, 10)]: leading white space, an optional sign, then the
    longest run of decimal digits; [None] is [NaN].  A string is the
    sequence of the bytes of its UTF-8 encoding.  White space is what
    [parseInt] trims: TAB, LF, VT, FF, CR, SP, and beyond ASCII U+00A0,
    U+1680, U+2000 to U+200A, U+2028, U+2029, U+202F, U+205F, U+3000 and
    U+FEFF. *)
Definition isWhiteSpace (c : Ascii.ascii) : bool :=
  let n := N.of_nat (Ascii.nat_of_ascii c) in
  ((9 <=? n) && (n <=? 13))%N || (n =? 32)%N.

(** U+00A0, encoded on two bytes. *)
Definition isWhiteSpace2 (c1 c2 : Ascii.ascii) : bool :=
  let n1 := N.of_nat (Ascii.nat_of_ascii c1) in
  let n2 := N.of_nat (Ascii.nat_of_ascii c2) in
  ((n1 =? 194) && (n2 =? 160))%N.

(** The white space encoded on three bytes. *)
Definition isWhiteSpace3 (c1 c2 c3 : Ascii.ascii) : bool :=
  let n1 := N.of_nat (Ascii.nat_of_ascii c1) in
  let n2 := N.of_nat (Ascii.nat_of_ascii c2) in
  let n3 := N.of_nat (Ascii.nat_of_ascii c3) in
  (((n1 =? 225) && (n2 =? 154) && (n3 =? 128))            (* U+1680 *)
   || ((n1 =? 226) && (n2 =? 128)
       && (((128 <=? n3) && (n3 <=? 138))                 (* U+2000-200A *)
           || (n3 =? 168) || (n3 =? 169)                  (* U+2028, 2029 *)
           || (n3 =? 175)))                               (* U+202F *)
   || ((n1 =? 226) && (n2 =? 129) && (n3 =? 159))         (* U+205F *)
   || ((n1 =? 227) && (n2 =? 128) && (n3 =? 128))         (* U+3000 *)
   || ((n1 =? 239) && (n2 =? 187) && (n3 =? 191)))%N.     (* U+FEFF *)

Fixpoint skipWhiteSpace (s : string) : string :=
  match s with
  | String c1 rest1 =>
      if isWhiteSpace c1 then skipWhiteSpace rest1 else
      match rest1 with
      | String c2 rest2 =>
          if isWhiteSpace2 c1 c2 then skipWhiteSpace rest2 else
          match rest2 with
          | String c3 rest3 =>
              if isWhiteSpace3 c1 c2 c3 then skipWhiteSpace rest3 else s
          | EmptyString => s
          end
      | EmptyString => s
      end
  | EmptyString => s
  end.

Definition digitValue (c : Ascii.ascii) : option Z :=
  let n := Z.of_nat (Ascii.nat_of_ascii c) in
  if (48 <=? n) && (n <=? 57) then Some (n - 48) else None.

Fixpoint parseDigits (s : string) (acc : option Z) : option Z :=
  match s with
  | String c rest =>
      match digitValue c with
      | Some d => parseDigits rest (Some (10 * default 0 acc + d))
      | None => acc
      end
  | EmptyString => acc
  end.

Definition parseInt (s : string) : option Z :=
  match skipWhiteSpace s with
  | String "-"%char rest => Z.opp <$> parseDigits rest None
  | String "+"%char rest => parseDigits rest None
  | s' => parseDigits s' None
  end.

(** [array[index]] for an integer index: [undefined] outside the array. *)
Definition arrayGet {A : Type} (l : list A) (index : Z) : option A :=
  if index <? 0 then None else l !! Z.to_nat index.

(** The object handed to [useLatest]. *)
Record LatestData : Type := mkLatestData {
  ld_measurementCache : gmap string Z;
  ld_getItemKey : Z → Key;
  ld_allItems : list Row;
  ld_getScrollElement : bool;
  ld_scrollTop : Z;
}.

(** [measureElementInner(element, resizeObserver, entry)].  [getScrollElement]
    is the variable of the enclosing render the callback closes over,
    [latest] is what [latestData.current] holds when the callback runs.  The
    result is the effects issued and the exception, if one ends the call. *)
Definition measureElementInner (getScrollElement : bool) (latest : LatestData)
    (element : option Element) (entry : option ResizeObserverEntry)
    : list Effect * option JsError :=
  match element with
  | None => ([], None)
  | Some el =>
      if negb (isConnected el) then ([Unobserve (el_id el)], None) else
      match parseInt (default "" (data_index el)) with
      | None => ([ConsoleError], None)
      | Some index =>
          let measurementCache := ld_measurementCache latest in
          let key := ld_getItemKey latest index in
          let isResize := bool_decide (is_Some entry) in
          if negb isResize && bool_decide (is_Some (measurementCache !! key))
          then ([Observe (el_id el)], None) else
          let height := default (rect_height el) (entry ≫= blockSize) in
          if bool_decide (measurementCache !! key = Some height)
          then ([Observe (el_id el)], None) else
          match arrayGet (ld_allItems latest) index with
          | None => ([Observe (el_id el)], Some TypeError)
          | Some item =>
              let 'mkRow _ _ item_height item_offsetTop := item in
              let delta := height - item_height in
              let adjust :=
                if negb (delta =? 0) && (ld_scrollTop latest >? item_offsetTop)
                then (if getScrollElement then [ScrollBy 0 delta] else [])
                else [] in
              (Observe (el_id el) :: adjust ++ [SetMeasurementCache key height],
               None)
          end
      end
  end.

(** [measureElementInner] for a [getItemKey] that can throw, as the one of
    the demo application does for an index outside its list.  The call of
    [getItemKey] comes after the index is parsed and before [observe]; what
    the ref holds is passed field by field. *)
Definition measureElementInnerK (getScrollElement : bool)
    (getItemKey : Z → Exc Key) (measurementCache : gmap string Z)
    (allItems : list Row) (scrollTop : Z)
    (element : option Element) (entry : option ResizeObserverEntry)
    : list Effect * option JsError :=
  match element with
  | None => ([], None)
  | Some el =>
      if negb (isConnected el) then ([Unobserve (el_id el)], None) else
      match parseInt (default "" (data_index el)) with
      | None => ([ConsoleError], None)
      | Some index =>
          match getItemKey index with
          | Throw e => ([], Some e)
          | Ok key =>
              let isResize := bool_decide (is_Some entry) in
              if negb isResize
                 && bool_decide (is_Some (measurementCache !! key))
              then ([Observe (el_id el)], None) else
              let height := default (rect_height el) (entry ≫= blockSize) in
              if bool_decide (measurementCache !! key = Some height)
              then ([Observe (el_id el)], None) else
              match arrayGet allItems index with
              | None => ([Observe (el_id el)], Some TypeError)
              | Some item =>
                  let 'mkRow _ _ item_height item_offsetTop := item in
                  let delta := height - item_height in
                  let adjust :=
                    if negb (delta =? 0) && (scrollTop >? item_offsetTop)
                    then (if getScrollElement then [ScrollBy 0 delta] else [])
                    else [] in
                  (Observe (el_id el)
                     :: adjust ++ [SetMeasurementCache key height],
                   None)
              end
          end
      end
  end.

(** ** The hook as a state machine *)

Record HookState : Type := mkHookState {
  hs_listHeight : Z;
  hs_scrollTop : Z;
  hs_measurementCache : gmap string Z;
  (** [valueRef.current] of [useLatest]; [None] before the first render. *)
  hs_latest : option LatestData;
}.

(** The [useState] initial values. *)
Definition initialState : HookState :=
  {| hs_listHeight := 0; hs_scrollTop := 0; hs_measurementCache := ∅;
     hs_latest := None |}.

(** [useLatest(value)]: [useRef(value)] takes [value] on the first render
    only, and the insertion effect, declared with the dependency list [[]],
    runs once, after the first render, with that render's [value]. *)
Definition useLatest (ref : option LatestData) (value : LatestData)
    : option LatestData :=
  match ref with
  | None => Some value
  | Some current => Some current
  end.

(** One render of [useFixedSizeList(props)]. *)
Definition render (props : Props) (st : HookState)
    : Exc (MemoResult * HookState) :=
  _ ← validateProps props;
  memo ← useMemoBody props (hs_measurementCache st) (hs_scrollTop st)
           (hs_listHeight st);
  let value :=
    {| ld_measurementCache := hs_measurementCache st;
       ld_getItemKey := getItemKey props;
       ld_allItems := allItems memo;
       ld_getScrollElement := getScrollElement props;
       ld_scrollTop := hs_scrollTop st |} in
  mret (memo,
        {| hs_listHeight := hs_listHeight st;
           hs_scrollTop := hs_scrollTop st;
           hs_measurementCache := hs_measurementCache st;
           hs_latest := useLatest (hs_latest st) value |}).

(** What the environment delivers between renders. *)
Inductive Event : Type :=
  | ScrollTo (top : Z)                  (* [scroll] on the scroll element *)
  | ViewportResize (h : Z)              (* its [ResizeObserver] fires *)
  | MeasureElement (el : option Element)   (* [measureElement(element)] *)
  | ItemResize (el : Element) (entry : ResizeObserverEntry).
                                        (* [itemsResizeObserver] fires *)

(** The state setters an effect list calls. The updater of
    [setMeasurementCache] spreads the cache of the state it is applied to. *)
Definition commitEffect (st : HookState) (e : Effect) : HookState :=
  match e with
  | SetMeasurementCache k h =>
      {| hs_listHeight := hs_listHeight st;
         hs_scrollTop := hs_scrollTop st;
         hs_measurementCache := <[k := h]> (hs_measurementCache st);
         hs_latest := hs_latest st |}
  | _ => st
  end.

Definition measure (props : Props) (st : HookState)
    (element : option Element) (entry : option ResizeObserverEntry)
    : list Effect * HookState :=
  match hs_latest st with
  | None => ([], st)
  | Some latest =>
      let effects :=
        (measureElementInner (getScrollElement props) latest element entry).1 in
      (effects, foldl commitEffect st effects)
  end.

Definition dispatch (props : Props) (st : HookState) (ev : Event)
    : list Effect * HookState :=
  match ev with
  | ScrollTo top =>
      ([], if getScrollElement props
           then {| hs_listHeight := hs_listHeight st; hs_scrollTop := top;
                   hs_measurementCache := hs_measurementCache st;
                   hs_latest := hs_latest st |}
           else st)
  | ViewportResize h =>
      ([], if getScrollElement props
           then {| hs_listHeight := h; hs_scrollTop := hs_scrollTop st;
                   hs_measurementCache := hs_measurementCache st;
                   hs_latest := hs_latest st |}
           else st)
  | MeasureElement el => measure props st el None
  | ItemResize el entry => measure props st (Some el) (Some entry)
  end.

(** Each event is followed by a render; the effects of every event are
    collected, together with the result of the last render. *)
Fixpoint runEvents (props : Props) (out : MemoResult) (st : HookState)
    (events : list Event) : Exc (list (list Effect) * MemoResult * HookState) :=
  match events with
  | [] => Ok ([], out, st)
  | ev :: events' =>
      let '(effects, st1) := dispatch props st ev in
      '(out2, st2) ← render props st1;
      '(trace, outN, stN) ← runEvents props out2 st2 events';
      mret (effects :: trace, outN, stN)
  end.

(** Mount, then the events. *)
Definition run (props : Props) (events : list Event)
    : Exc (list (list Effect) * MemoResult * HookState) :=
  '(out, st) ← render props initialState;
  runEvents props out st events.

(** ** Reference functions used in the statements *)

Definition sumZ (l : list Z) : Z := foldr Z.add 0 l.

(** Sum of the heights of the items [0 .. k-1]. *)
Fixpoint prefixSum (h : Z → Z) (k : nat) : Z :=
  match k with
  | O => 0
  | S k' => prefixSum h k' + h (Z.of_nat k')
  end.

(** The first index below [k] at which [P] holds. *)
Fixpoint findFirst (P : nat → bool) (k : nat) : option nat :=
  match k with
  | O => None
  | S k' =>
      match findFirst P k' with
      | Some i => Some i
      | None => if P k' then Some k' else None
      end
  end.

(** [s] is the smallest index below [N] at which [P] holds. *)
Definition firstIndexWith (P : nat → Prop) (N s : nat) : Prop :=
  (s < N)%nat ∧ P s ∧ ∀ j, (j < s)%nat → ¬ P j.

(** [i] is the smallest index whose row satisfies [P]. *)
Definition firstRowWith (P : Row → Prop) (rows : list Row) (i : nat) : Prop :=
  (∃ row, rows !! i = Some row ∧ P row) ∧
  ∀ j row, (j < i)%nat → rows !! j = Some row → ¬ P row.

(** The row the loop builds for item [i]. *)
Definition rowAt (getItemKey : Z → Key) (h : Z → Z) (i : nat) : Row :=
  {| key := getItemKey (Z.of_nat i); index := Z.of_nat i;
     height := h (Z.of_nat i); offsetTop := prefixSum h i |}.

(** The loop state after [k] iterations from the start. *)
Definition loopAfter (itemsCount : nat) (getItemKey : Z → Key)
    (overscan rangeStart rangeEnd : Z) (h : Z → Z) (k : nat) : LoopState :=
  forLoopPure (loopBody itemsCount getItemKey overscan rangeStart rangeEnd)
    h k 0 loopInit.

(** Sum of [f] over the [len] indices from [lo] on. *)
Definition sumRange (f : Z → Z) (lo len : nat) : Z :=
  sumZ ((λ i, f (Z.of_nat i)) <$> seq lo len).

(** What the first render hands to [useLatest] when it succeeds: the empty
    cache, scroll offset 0 and the rows of the unmeasured collection. *)
Definition mountLatest (props : Props) : LatestData :=
  {| ld_measurementCache := ∅;
     ld_getItemKey := getItemKey props;
     ld_allItems :=
       rowAt (getItemKey props) (resolvedHeight props ∅)
         <$> seq 0 (itemsCount props);
     ld_getScrollElement := getScrollElement props;
     ld_scrollTop := 0 |}.

(** The event that delivers a measurement of [el]: a registration, or a
    resize notification with its entry. *)
Definition measurementEvent (el : Element)
    (entry : option ResizeObserverEntry) : Event :=
  match entry with
  | None => MeasureElement (Some el)
  | Some en => ItemResize el en
  end.

(** [out] is what a render computes from the state [st], and the ref holds
    the data of the first render. *)
Definition consistent (props : Props) (out : MemoResult) (st : HookState)
    : Prop :=
  out = rangeCalc (itemsCount props) (getItemKey props)
          (default DEFAULT_OVERSCAN (overscan props))
          (hs_scrollTop st) (hs_listHeight st)
          (resolvedHeight props (hs_measurementCache st)) ∧
  hs_latest st = Some (mountLatest props).

(** [measure], with the exception the call ends with. *)
Definition measureCall (props : Props) (st : HookState)
    (element : option Element) (entry : option ResizeObserverEntry)
    : list Effect * option JsError * HookState :=
  match hs_latest st with
  | None => ([], None, st)
  | Some latest =>
      let '(effects, err) :=
        measureElementInner (getScrollElement props) latest element entry in
      (effects, err, foldl commitEffect st effects)
  end.

(** The callback of [itemsResizeObserver]: [entries.forEach] calls
    [measureElementInner(entry.target, ro, entry)] for each entry in turn,
    with no render in between; a call that throws ends the [forEach], and
    the entries after it are not handled. *)
Fixpoint itemsResizeObserverCallback (props : Props) (st : HookState)
    (entries : list (Element * ResizeObserverEntry))
    : list Effect * option JsError * HookState :=
  match entries with
  | [] => ([], None, st)
  | entry :: rest =>
      let '(effects, err, st1) :=
        measureCall props st (Some entry.1) (Some entry.2) in
      match err with
      | Some e => (effects, Some e, st1)
      | None =>
          let '(effects', err', st') :=
            itemsResizeObserverCallback props st1 rest in
          (effects ++ effects', err', st')
      end
  end.

(** The call for [entry] throws, on the data the ref holds in a run. *)
Definition callThrows (props : Props)
    (entry : Element * ResizeObserverEntry) : bool :=
  match (measureElementInner (getScrollElement props) (mountLatest props)
           (Some entry.1) (Some entry.2)).2 with
  | Some _ => true
  | None => false
  end.

(** The entries up to and including the first one whose call throws. *)
Fixpoint handledEntries (props : Props)
    (entries : list (Element * ResizeObserverEntry))
    : list (Element * ResizeObserverEntry) :=
  match entries with
  | [] => []
  | entry :: rest =>
      if callThrows props entry then [entry]
      else entry :: handledEntries props rest
  end.

(** [Array(n)] throws a [RangeError] unless [n] is below [2^32]; the memo is
    modelled for the lengths it accepts. *)
Definition validArrayLength (n : nat) : Prop := Z.of_nat n < 2 ^ 32.

(** [Number.MAX_SAFE_INTEGER]: sums of integers that stay within it are
    exact in the arithmetic of the code. *)
Definition MAX_SAFE_INTEGER : Z := 9007199254740991.

Definition safeInteger (z : Z) : Prop :=
  - MAX_SAFE_INTEGER ≤ z ≤ MAX_SAFE_INTEGER.

(** The heights [h] of the first [n] items and their running sums are safe
    integers. *)
Definition safeHeights (h : Z → Z) (n : nat) : Prop :=
  ∀ k, (k ≤ n)%nat →
    safeInteger (prefixSum h k) ∧ safeInteger (h (Z.of_nat k)).

(** ** Sample configurations *)

(** Keys derived from the index. *)
Definition keyOf (i : Z) : Key := pretty i.

(** The demo application: 16px estimates, default overscan. *)
Definition demoProps (n : nat) : Props :=
  {| itemsCount := n; itemHeight := None;
     estimateItemHeight := Some (λ _, 16); getItemKey := keyOf;
     overscan := None; scrollingDelay := None; getScrollElement := true |}.

(** Fixed 40px rows, no estimate. *)
Definition fixedProps (n : nat) : Props :=
  {| itemsCount := n; itemHeight := Some (λ _, 40);
     estimateItemHeight := None; getItemKey := keyOf;
     overscan := None; scrollingDelay := None; getScrollElement := true |}.

(** Neither height prop. *)
Definition bareProps (n : nat) : Props :=
  {| itemsCount := n; itemHeight := None; estimateItemHeight := None;
     getItemKey := keyOf; overscan := None; scrollingDelay := None;
     getScrollElement := true |}.

(** Heights 10, 0, 25, 25, ... *)
Definition unevenHeights (i : Z) : Z :=
  if i =? 0 then 10 else if i =? 1 then 0 else 25.

(** A connected row element tagged with [data-index = i], [h] pixels high. *)
Definition rowElement (i : nat) (h : Z) : Element :=
  {| el_id := i; isConnected := true;
     data_index := Some (pretty (Z.of_nat i)); rect_height := h |}.

(** ** The scrolling-activity effect

    The third effect of the hook.  [isScrolling] is React state; [timeoutId]
    and [scrollingDelay] are variables of the closure the effect creates
    when it runs; the environment's timers are a finite map from the ids
    [setTimeout] has handed out and that are still pending to their
    delays. *)

Record Scrolling : Type := mkScrolling {
  isScrolling : bool;
  timeoutId : option nat;
  (** [scrollingDelay] as the running effect has captured it *)
  delay : Z;
  (** the [scroll] listener of the effect is attached *)
  listening : bool;
  timers : gmap nat Z;
  (** the id the next [setTimeout] returns *)
  nextTimer : nat;
}.

Definition scrollingInit : Scrolling :=
  {| isScrolling := false; timeoutId := None;
     delay := DEFAULT_SCROLLING_DELAY; listening := false;
     timers := ∅; nextTimer := 1 |}.

(** [clearTimeout(timeoutId)] under [typeof timeoutId === 'number']. *)
Definition clearPending (id : option nat) (pending : gmap nat Z)
    : gmap nat Z :=
  match id with
  | Some i => delete i pending
  | None => pending
  end.

(** The function the effect returns. *)
Definition scrollingCleanup (s : Scrolling) : Scrolling :=
  if listening s
  then {| isScrolling := isScrolling s; timeoutId := timeoutId s;
          delay := delay s; listening := false;
          timers := clearPending (timeoutId s) (timers s);
          nextTimer := nextTimer s |}
  else s.

(** The effect body: nothing without a scroll element, else a fresh closure
    ([timeoutId = null]) and the listener. *)
Definition scrollingEffect (props : Props) (s : Scrolling) : Scrolling :=
  if getScrollElement props
  then {| isScrolling := isScrolling s; timeoutId := None;
          delay := default DEFAULT_SCROLLING_DELAY (scrollingDelay props);
          listening := true; timers := timers s;
          nextTimer := nextTimer s |}
  else s.

(** [handleScroll] of the effect; it runs while the listener is attached. *)
Definition scrollingHandleScroll (s : Scrolling) : Scrolling :=
  if listening s
  then {| isScrolling := true;
          timeoutId := Some (nextTimer s);
          delay := delay s; listening := true;
          timers :=
            <[nextTimer s := delay s]>
              (clearPending (timeoutId s) (timers s));
          nextTimer := S (nextTimer s) |}
  else s.

(** The timer [id] expires: its callback runs if it is still pending. *)
Definition scrollingTimeout (id : nat) (s : Scrolling) : Scrolling :=
  match timers s !! id with
  | Some _ =>
      {| isScrolling := false; timeoutId := timeoutId s;
         delay := delay s; listening := listening s;
         timers := delete id (timers s); nextTimer := nextTimer s |}
  | None => s
  end.

Inductive ScrollingEvent : Type :=
  | SEffect (props : Props)   (* a render whose dependencies changed *)
  | SScroll                   (* a [scroll] event on the scroll element *)
  | STimeout (id : nat)       (* the timer [id] expires *)
  | SUnmount.

(** React cleans the previous run of an effect up before it runs the effect
    again, and on unmount. *)
Definition scrollingStep (s : Scrolling) (ev : ScrollingEvent) : Scrolling :=
  match ev with
  | SEffect props => scrollingEffect props (scrollingCleanup s)
  | SScroll => scrollingHandleScroll s
  | STimeout id => scrollingTimeout id s
  | SUnmount => scrollingCleanup s
  end.

Definition scrollingRun (events : list ScrollingEvent) : Scrolling :=
  foldl scrollingStep scrollingInit events.

(** Every pending timer is the one [timeoutId] names, it was set by the
    attached listener, and the flag is up while it is pending; ids handed
    out lie below [nextTimer]. *)
Definition scrollingInv (s : Scrolling) : Prop :=
  (∀ id, is_Some (timers s !! id) →
     timeoutId s = Some id ∧ listening s = true ∧ isScrolling s = true) ∧
  (∀ id, timeoutId s = Some id → (id < nextTimer s)%nat).

(** Events that are no run of the effect. *)
Definition isEffectRun (ev : ScrollingEvent) : bool :=
  match ev with SEffect _ => true | _ => false end.

(** ** The demo application

    [App] keeps [listItems] in state, takes the key of a row from the item at
    that position and estimates every row at 16 pixels.  [listItems[index]!]
    is read for the indices below [listItems.length] only, which is what the
    hook's loop passes; outside of them the key is left empty here. *)

Record Item : Type := mkItem {
  item_id : string;
  item_text : string;
}.

Definition appGetItemKey (listItems : list Item) (index : Z) : Key :=
  match arrayGet listItems index with
  | Some item => item_id item
  | None => ""
  end.

(** [listItems[index]!.id] as it is evaluated: a [TypeError] outside the
    list. *)
Definition appGetItemKeyExc (listItems : list Item) (index : Z) : Exc Key :=
  match arrayGet listItems index with
  | Some item => Ok (item_id item)
  | None => Throw TypeError
  end.

Definition appProps (listItems : list Item) (scrollElement : bool) : Props :=
  {| itemsCount := length listItems; itemHeight := None;
     estimateItemHeight := Some (λ _, 16);
     getItemKey := appGetItemKey listItems;
     overscan := None; scrollingDelay := None;
     getScrollElement := scrollElement |}.

(** The [reverse] button: [items.slice().reverse()]. *)
Definition reverseClick (listItems : list Item) : list Item :=
  reverse listItems.

(** * Properties *)

(** ** The loop *)

Lemma forLoopPure_snoc body h r idx st :
  forLoopPure body h (S r) idx st =
  body (idx + Z.of_nat r) (h (idx + Z.of_nat r)) (forLoopPure body h r idx st).
Proof.
  revert idx st. induction r as [|r IH]; intros idx st.
  - simpl. by rewrite Z.add_0_r.
  - change (forLoopPure body h (S (S r)) idx st)
      with (forLoopPure body h (S r) (idx + 1) (body idx (h idx) st)).
    rewrite IH. simpl forLoopPure.
    by replace (idx + 1 + Z.of_nat r) with (idx + Z.of_nat (S r)) by lia.
Qed.

Lemma forLoop_total body g h r idx st :
  (∀ i, g i = Ok (h i)) →
  forLoop body g r idx st = Ok (forLoopPure body h r idx st).
Proof.
  intros Hg. revert idx st. induction r as [|r IH]; intros idx st; simpl.
  - done.
  - rewrite Hg. simpl. apply IH.
Qed.

Lemma memoBody_total N gk o sT lH g h :
  (∀ i, g i = Ok (h i)) →
  memoBody N gk o sT lH g = Ok (rangeCalc N gk o sT lH h).
Proof.
  intros Hg. unfold memoBody, rangeCalc.
  by rewrite (forLoop_total _ g h).
Qed.

Section Loop.
Variables (N : nat) (gk : Z → Key) (o rs re : Z) (h : Z → Z).

Lemma loopAfter_S k :
  loopAfter N gk o rs re h (S k) =
  loopBody N gk o rs re (Z.of_nat k) (h (Z.of_nat k))
    (loopAfter N gk o rs re h k).
Proof. unfold loopAfter. by rewrite forLoopPure_snoc, Z.add_0_l. Qed.

Lemma loopAfter_totalHeight k :
  ls_totalHeight (loopAfter N gk o rs re h k) = prefixSum h k.
Proof.
  induction k as [|k IH]; [done|].
  rewrite loopAfter_S. simpl. by rewrite IH.
Qed.

Lemma loopAfter_rows k :
  ls_allRows (loopAfter N gk o rs re h k) = rowAt gk h <$> seq 0 k.
Proof.
  induction k as [|k IH]; [done|].
  rewrite loopAfter_S, seq_S, fmap_app. simpl.
  by rewrite IH, loopAfter_totalHeight.
Qed.

Lemma loopAfter_startIndex k :
  ls_startIndex (loopAfter N gk o rs re h k) =
  match findFirst (λ i, prefixSum h i + h (Z.of_nat i) >? rs) k with
  | Some s => Z.max 0 (Z.of_nat s - o)
  | None => -1
  end.
Proof.
  induction k as [|k IH]; [done|].
  rewrite loopAfter_S. simpl. rewrite IH, loopAfter_totalHeight.
  destruct (findFirst _ k) as [s|].
  - replace (Z.max 0 (Z.of_nat s - o) =? -1) with false; [done|].
    symmetry. apply Z.eqb_neq. lia.
  - simpl. by destruct (_ >? _).
Qed.

Lemma findFirst_lt P k i : findFirst P k = Some i → (i < k)%nat.
Proof.
  induction k as [|k IH]; simpl; [done|].
  destruct (findFirst P k) as [j|].
  - intros [= <-]. specialize (IH eq_refl). lia.
  - destruct (P k); [|done]. intros [= <-]. lia.
Qed.

Lemma loopAfter_endIndex k :
  0 ≤ o → (k ≤ N)%nat →
  ls_endIndex (loopAfter N gk o rs re h k) =
  match findFirst (λ i, prefixSum h i + h (Z.of_nat i) >=? re) k with
  | Some e => Z.min (Z.of_nat N - 1) (Z.of_nat e + o)
  | None => -1
  end.
Proof.
  intros Ho. induction k as [|k IH]; intros Hk; [done|].
  rewrite loopAfter_S. simpl. rewrite IH, loopAfter_totalHeight by lia.
  destruct (findFirst _ k) as [e|] eqn:He.
  - replace (Z.min _ _ =? -1) with false; [done|].
    symmetry. apply Z.eqb_neq. apply findFirst_lt in He. lia.
  - simpl. by destruct (_ >=? _).
Qed.

(** Without an index at which the end test holds, [endIndex] keeps its
    initial value, whatever [overscan] is. *)
Lemma loopAfter_endIndex_none k :
  findFirst (λ i, prefixSum h i + h (Z.of_nat i) >=? re) k = None →
  ls_endIndex (loopAfter N gk o rs re h k) = -1.
Proof.
  induction k as [|k IH]; [done|].
  rewrite loopAfter_S. simpl. rewrite loopAfter_totalHeight.
  destruct (findFirst _ k) as [e|]; [done|].
  destruct (_ >=? _) eqn:E; [done|]. intros _.
  rewrite IH by done. done.
Qed.
End Loop.

Lemma findFirst_None P k :
  findFirst P k = None ↔ ∀ j, (j < k)%nat → P j = false.
Proof.
  induction k as [|k IH]; simpl.
  - split; [lia | done].
  - destruct (findFirst P k) as [i|].
    + split; [done|]. intros Hall. exfalso.
      destruct IH as [_ IH]. enough (Some i = None) by done.
      apply IH. intros j Hj. apply Hall. lia.
    + destruct IH as [IH _]. specialize (IH eq_refl).
      destruct (P k) eqn:EP; split; try done.
      * intros Hall. rewrite Hall in EP; [done | lia].
      * intros _ j Hj. destruct (decide (j = k)) as [->|]; [done|].
        apply IH. lia.
Qed.

Lemma findFirst_Some P k i :
  findFirst P k = Some i ↔
  (i < k)%nat ∧ P i = true ∧ ∀ j, (j < i)%nat → P j = false.
Proof.
  revert i. induction k as [|k IH]; intros i; simpl.
  - split; [done | lia].
  - destruct (findFirst P k) as [j|] eqn:Hj.
    + destruct (IH j) as [(Hlt & HP & Hmin) _]; [done|]. split.
      * intros [= <-]. split; [lia | done].
      * intros (Hi & HPi & Hmini). f_equal.
        destruct (Nat.lt_trichotomy i j) as [Hij|[->|Hij]]; [|done|].
        -- rewrite Hmin in HPi; done.
        -- rewrite Hmini in HP; done.
    + pose proof (proj1 (findFirst_None P k) Hj) as Hn.
      clear Hj. rename Hn into Hj.
      destruct (P k) eqn:EP; split.
      * intros [= <-]. split; [lia | done].
      * intros (Hi & HPi & Hmini). f_equal.
        destruct (decide (i = k)) as [->|]; [done|].
        rewrite Hj in HPi; [done | lia].
      * done.
      * intros (Hi & HPi & Hmini).
        destruct (decide (i = k)) as [->|]; [congruence|].
        rewrite Hj in HPi; [done | lia].
Qed.

(** ** The result of the range calculator *)

Lemma prefixSum_mono h i j :
  (i ≤ j)%nat →
  (∀ k, (i ≤ k < j)%nat → 0 ≤ h (Z.of_nat k)) →
  prefixSum h i ≤ prefixSum h j.
Proof.
  induction 1 as [|j Hij IH]; intros Hh; [lia|].
  simpl. specialize (Hh j) as Hj. specialize (IH ltac:(intros; apply Hh; lia)).
  specialize (Hj ltac:(lia)). lia.
Qed.

Lemma sumZ_app l1 l2 : sumZ (l1 ++ l2) = sumZ l1 + sumZ l2.
Proof. induction l1 as [|x l1 IH]; simpl; lia. Qed.

Lemma sumZ_heights gk h k :
  sumZ (height <$> (rowAt gk h <$> seq 0 k)) = prefixSum h k.
Proof.
  induction k as [|k IH]; [done|].
  rewrite seq_S, !fmap_app, sumZ_app, IH. simpl. lia.
Qed.

Lemma rows_lookup gk h N i row :
  (rowAt gk h <$> seq 0 N) !! i = Some row ↔ (i < N)%nat ∧ row = rowAt gk h i.
Proof.
  rewrite list_lookup_fmap. split.
  - intros Hl. destruct (seq 0 N !! i) as [j|] eqn:Hj; [|done].
    apply lookup_seq in Hj as [-> ?]. simpl in Hl. by injection Hl as <-.
  - intros [Hi ->]. by rewrite (lookup_seq_lt 0 N i Hi).
Qed.

Lemma rows_Forall gk h N (P : Row → Prop) :
  Forall P (rowAt gk h <$> seq 0 N) ↔ ∀ i, (i < N)%nat → P (rowAt gk h i).
Proof.
  rewrite Forall_lookup. split.
  - intros H i Hi. apply (H i). apply rows_lookup. done.
  - intros H i row [Hi ->]%rows_lookup. by apply H.
Qed.

Lemma firstRowWith_findFirst gk h N (P : Row → Prop) (Pb : nat → bool) s :
  (∀ i, Pb i = true ↔ P (rowAt gk h i)) →
  firstRowWith P (rowAt gk h <$> seq 0 N) s ↔ findFirst Pb N = Some s.
Proof.
  intros HP. rewrite findFirst_Some. unfold firstRowWith. split.
  - intros [(row & [Hs ->]%rows_lookup & Hrow) Hmin].
    split; [done|]. split; [by apply HP|].
    intros j Hj. destruct (Pb j) eqn:E; [|done]. exfalso.
    apply (Hmin j (rowAt gk h j)); [done| |by apply HP].
    apply rows_lookup. split; [lia | done].
  - intros (Hs & Hrow & Hmin). split.
    + exists (rowAt gk h s). split; [by apply rows_lookup | by apply HP].
    + intros j row Hj [_ ->]%rows_lookup HPj.
      apply HP in HPj. rewrite Hmin in HPj; done.
Qed.

Lemma slice_end_0 {A} (l : list A) start : slice l start 0 = [].
Proof.
  unfold slice. cbv zeta. change (0 <? 0) with false. cbv iota.
  replace (Z.to_nat (_ - _)) with 0%nat; [done|].
  destruct (Z.ltb_spec start 0); lia.
Qed.

Section RangeCalc.
Variables (N : nat) (gk : Z → Key) (o sT lH : Z) (h : Z → Z).

Lemma rangeCalc_allItems :
  allItems (rangeCalc N gk o sT lH h) = rowAt gk h <$> seq 0 N.
Proof. apply loopAfter_rows. Qed.

Lemma rangeCalc_totalHeight :
  totalHeight (rangeCalc N gk o sT lH h) = prefixSum h N.
Proof. apply loopAfter_totalHeight. Qed.

Lemma rangeCalc_startIndex :
  startIndex (rangeCalc N gk o sT lH h) =
  match findFirst (λ i, prefixSum h i + h (Z.of_nat i) >? sT) N with
  | Some s => Z.max 0 (Z.of_nat s - o)
  | None => -1
  end.
Proof. apply loopAfter_startIndex. Qed.

Lemma rangeCalc_endIndex :
  0 ≤ o →
  endIndex (rangeCalc N gk o sT lH h) =
  match findFirst (λ i, prefixSum h i + h (Z.of_nat i) >=? sT + lH) N with
  | Some e => Z.min (Z.of_nat N - 1) (Z.of_nat e + o)
  | None => -1
  end.
Proof. intros Ho. by apply loopAfter_endIndex. Qed.

Lemma rangeCalc_endIndex_none :
  findFirst (λ i, prefixSum h i + h (Z.of_nat i) >=? sT + lH) N = None →
  endIndex (rangeCalc N gk o sT lH h) = -1.
Proof. apply loopAfter_endIndex_none. Qed.

Lemma start_test_spec i :
  (prefixSum h i + h (Z.of_nat i) >? sT) = true ↔
  sT < offsetTop (rowAt gk h i) + height (rowAt gk h i).
Proof. simpl. rewrite Z.gtb_ltb, Z.ltb_lt. lia. Qed.

Lemma end_test_spec i :
  (prefixSum h i + h (Z.of_nat i) >=? sT + lH) = true ↔
  sT + lH ≤ offsetTop (rowAt gk h i) + height (rowAt gk h i).
Proof. simpl. rewrite Z.geb_leb, Z.leb_le. lia. Qed.

(** [startIndex] when the start boundary is in the collection. *)
Lemma rangeCalc_startIndex_first s :
  firstRowWith (λ row, sT < offsetTop row + height row)
    (allItems (rangeCalc N gk o sT lH h)) s →
  startIndex (rangeCalc N gk o sT lH h) = Z.max 0 (Z.of_nat s - o).
Proof.
  rewrite rangeCalc_allItems, rangeCalc_startIndex.
  intros Hs.
  by rewrite (proj1 (firstRowWith_findFirst gk h N _ _ s start_test_spec) Hs).
Qed.

(** [endIndex] when the end boundary is in the collection. *)
Lemma rangeCalc_endIndex_first e :
  0 ≤ o →
  firstRowWith (λ row, sT + lH ≤ offsetTop row + height row)
    (allItems (rangeCalc N gk o sT lH h)) e →
  endIndex (rangeCalc N gk o sT lH h) = Z.min (Z.of_nat N - 1) (Z.of_nat e + o).
Proof.
  intros Ho. rewrite rangeCalc_allItems, rangeCalc_endIndex by done.
  intros He.
  by rewrite (proj1 (firstRowWith_findFirst gk h N _ _ e end_test_spec) He).
Qed.

(** [startIndex] stays [-1] exactly when no row passes [scrollTop]. *)
Lemma rangeCalc_startIndex_unset :
  startIndex (rangeCalc N gk o sT lH h) = -1 ↔
  Forall (λ row, offsetTop row + height row ≤ sT)
    (allItems (rangeCalc N gk o sT lH h)).
Proof.
  rewrite rangeCalc_allItems, rangeCalc_startIndex, rows_Forall.
  destruct (findFirst _ N) as [s|] eqn:Hs.
  - apply findFirst_Some in Hs as (Hlt & HP & _).
    apply start_test_spec in HP. split; [lia|].
    intros Hall. specialize (Hall s Hlt). lia.
  - split; [|done]. intros _ i Hi.
    pose proof (proj1 (findFirst_None _ _) Hs i Hi) as Hf.
    simpl in *. rewrite Z.gtb_ltb, Z.ltb_ge in Hf. lia.
Qed.

(** [endIndex] stays [-1] exactly when no row reaches the end of the
    window. *)
Lemma rangeCalc_endIndex_unset :
  0 ≤ o →
  endIndex (rangeCalc N gk o sT lH h) = -1 ↔
  Forall (λ row, offsetTop row + height row < sT + lH)
    (allItems (rangeCalc N gk o sT lH h)).
Proof.
  intros Ho.
  rewrite rangeCalc_allItems, rangeCalc_endIndex, rows_Forall by done.
  destruct (findFirst _ N) as [e|] eqn:He.
  - apply findFirst_Some in He as (Hlt & HP & _).
    apply end_test_spec in HP. split; [lia|].
    intros Hall. specialize (Hall e Hlt). lia.
  - split; [|done]. intros _ i Hi.
    pose proof (proj1 (findFirst_None _ _) He i Hi) as Hf.
    simpl in *. rewrite Z.geb_leb, Z.leb_gt in Hf. lia.
Qed.
End RangeCalc.

(** ** Claims on the range calculator *)

(** C1, amended. Row [i] of the computed sequence has the height
    [height(i)] of the lookup and the offset [offsetTop(i)], the sum of the
    heights before it.  For the smallest index [s] below [itemsCount] with
    [offsetTop(s) + height(s) > scrollOffset], [startIndex] is
    [max(0, s - overscan)], whatever [overscan] is.  For the smallest index
    [e] with [offsetTop(e) + height(e) >= scrollOffset + viewportHeight],
    [endIndex] is [min(itemsCount - 1, e + overscan)] when [overscan] is not
    negative. *)
Theorem range_boundaries (N : nat) (gk : Z → Key) (o sT lH : Z) (h : Z → Z) :
  let r := rangeCalc N gk o sT lH h in
  (∀ i, (i < N)%nat →
     allItems r !! i =
     Some {| key := gk (Z.of_nat i); index := Z.of_nat i;
             height := h (Z.of_nat i); offsetTop := prefixSum h i |}) ∧
  (∀ s, firstIndexWith (λ i, sT < prefixSum h i + h (Z.of_nat i)) N s →
        startIndex r = Z.max 0 (Z.of_nat s - o)) ∧
  (0 ≤ o →
   ∀ e, firstIndexWith (λ i, sT + lH ≤ prefixSum h i + h (Z.of_nat i)) N e →
        endIndex r = Z.min (Z.of_nat N - 1) (Z.of_nat e + o)).
Proof.
  intros r. subst r. split; [|split].
  - intros i Hi. rewrite rangeCalc_allItems. by apply rows_lookup.
  - intros s (Hs & HP & Hmin). rewrite rangeCalc_startIndex.
    rewrite (proj2 (findFirst_Some _ N s)); [done|].
    split; [done|]. split.
    + rewrite Z.gtb_ltb. by apply Z.ltb_lt.
    + intros j Hj. rewrite Z.gtb_ltb. apply Z.ltb_ge.
      specialize (Hmin j Hj). lia.
  - intros Ho e (He & HP & Hmin). rewrite rangeCalc_endIndex by done.
    rewrite (proj2 (findFirst_Some _ N e)); [done|].
    split; [done|]. split.
    + rewrite Z.geb_leb. by apply Z.leb_le.
    + intros j Hj. rewrite Z.geb_leb. apply Z.leb_gt.
      specialize (Hmin j Hj). lia.
Qed.

(** C2. Each row's [offsetTop] is the sum of the heights of the rows before
    it, so the first offset is 0 and offsets do not decrease when heights
    are non-negative; [totalHeight] is the last row's [offsetTop] plus its
    height, and 0 for an empty collection. *)
Theorem prefix_sum_invariant (N : nat) (gk : Z → Key) (o sT lH : Z)
    (h : Z → Z) :
  let r := rangeCalc N gk o sT lH h in
  length (allItems r) = N ∧
  (∀ i row, allItems r !! i = Some row →
     index row = Z.of_nat i ∧ height row = h (Z.of_nat i) ∧
     offsetTop row = sumZ (height <$> take i (allItems r))) ∧
  (∀ row, allItems r !! 0%nat = Some row → offsetTop row = 0) ∧
  (Forall (λ row, 0 ≤ height row) (allItems r) →
   ∀ i j ri rj, (i ≤ j)%nat →
     allItems r !! i = Some ri → allItems r !! j = Some rj →
     offsetTop ri ≤ offsetTop rj) ∧
  totalHeight r =
    match last (allItems r) with
    | Some row => offsetTop row + height row
    | None => 0
    end ∧
  (N = 0%nat → totalHeight r = 0).
Proof.
  intros r. subst r.
  rewrite rangeCalc_allItems, rangeCalc_totalHeight.
  split; [by rewrite length_fmap, length_seq|].
  split; [|split; [|split; [|split]]].
  - intros i row [Hi ->]%rows_lookup.
    split; [done|]. split; [done|].
    rewrite <- fmap_take, take_seq, Nat.min_l by lia.
    by rewrite sumZ_heights.
  - by intros row [_ ->]%rows_lookup.
  - intros Hh i j ri rj Hij [Hi ->]%rows_lookup [Hj ->]%rows_lookup.
    simpl. apply prefixSum_mono; [done|].
    intros k Hk. apply (proj1 (rows_Forall gk h N _) Hh k). lia.
  - destruct N as [|n]; [done|].
    rewrite seq_S, fmap_app. simpl (_ <$> [_]). by rewrite last_snoc.
  - by intros ->.
Qed.

(** C4, amended. For [itemsCount > 0] and [viewportHeight > 0], whenever
    some row reaches the end of the window ([offsetTop + height >=
    scrollOffset + viewportHeight]), [startIndex <= endIndex] and both lie
    in [[0, itemsCount - 1]]. *)
Theorem range_within_bounds (N : nat) (gk : Z → Key) (o sT lH : Z)
    (h : Z → Z) :
  0 ≤ o → (0 < N)%nat → 0 < lH →
  let r := rangeCalc N gk o sT lH h in
  Exists (λ row, sT + lH ≤ offsetTop row + height row) (allItems r) →
  startIndex r ≤ endIndex r ∧
  0 ≤ startIndex r ≤ Z.of_nat N - 1 ∧
  0 ≤ endIndex r ≤ Z.of_nat N - 1.
Proof.
  intros Ho HN HlH r Hex. subst r.
  rewrite rangeCalc_startIndex, rangeCalc_endIndex by done.
  rewrite rangeCalc_allItems in Hex.
  destruct (findFirst (λ i, _ >=? _) N) as [e|] eqn:He.
  - apply findFirst_Some in He as (Hlt & HP & _).
    apply (end_test_spec gk) in HP.
    destruct (findFirst (λ i, _ >? _) N) as [s|] eqn:Hs.
    + apply findFirst_Some in Hs as (Hslt & _ & Hmin).
      assert (s ≤ e)%nat.
      { destruct (decide (s ≤ e)%nat) as [|Hn]; [done|].
        specialize (Hmin e ltac:(lia)). simpl in *.
        rewrite Z.gtb_ltb, Z.ltb_ge in Hmin. lia. }
      lia.
    + pose proof (proj1 (findFirst_None _ _) Hs e Hlt) as Hf.
      simpl in *. rewrite Z.gtb_ltb, Z.ltb_ge in Hf. lia.
  - exfalso. apply Exists_exists in Hex as (row & Hin & Hrow).
    apply list_elem_of_lookup in Hin as [i [Hi ->]%rows_lookup].
    pose proof (proj1 (findFirst_None _ _) He i Hi) as Hf.
    simpl in *. rewrite Z.geb_leb, Z.leb_gt in Hf. lia.
Qed.

(** C7, amended. With [viewportHeight = 0] the rows and [totalHeight] are
    those of any other viewport height, and the range follows the general
    rule with the end of the window at [scrollOffset]: [startIndex]
    ([endIndex]) is the unset value [-1] exactly when no row passes
    (reaches) [scrollOffset], and otherwise it is the widened, clamped first
    such index. *)
Theorem zero_viewport_range (N : nat) (gk : Z → Key) (o sT : Z) (h : Z → Z) :
  0 ≤ o →
  let r := rangeCalc N gk o sT 0 h in
  (∀ lH, allItems (rangeCalc N gk o sT lH h) = allItems r ∧
         totalHeight (rangeCalc N gk o sT lH h) = totalHeight r) ∧
  length (allItems r) = N ∧
  totalHeight r = sumZ (height <$> allItems r) ∧
  (startIndex r = -1 ↔
   Forall (λ row, offsetTop row + height row ≤ sT) (allItems r)) ∧
  (endIndex r = -1 ↔
   Forall (λ row, offsetTop row + height row < sT) (allItems r)) ∧
  (∀ s, firstRowWith (λ row, sT < offsetTop row + height row) (allItems r) s →
        startIndex r = Z.max 0 (Z.of_nat s - o)) ∧
  (∀ e, firstRowWith (λ row, sT ≤ offsetTop row + height row) (allItems r) e →
        endIndex r = Z.min (Z.of_nat N - 1) (Z.of_nat e + o)).
Proof.
  intros Ho r. subst r. repeat split.
  - by rewrite !rangeCalc_allItems.
  - by rewrite !rangeCalc_totalHeight.
  - by rewrite rangeCalc_allItems, length_fmap, length_seq.
  - by rewrite rangeCalc_allItems, rangeCalc_totalHeight, sumZ_heights.
  - apply rangeCalc_startIndex_unset.
  - apply rangeCalc_startIndex_unset.
  - intros Hu. apply rangeCalc_endIndex_unset in Hu; [|done].
    by rewrite Z.add_0_r in Hu.
  - intros Hu. apply rangeCalc_endIndex_unset; [done|].
    by rewrite Z.add_0_r.
  - apply rangeCalc_startIndex_first.
  - intros e He. apply rangeCalc_endIndex_first; [done|].
    by rewrite Z.add_0_r.
Qed.

(** C10. For [itemsCount > 0], when no row reaches the end of the window
    ([offsetTop + height < scrollOffset + viewportHeight] for every row),
    [endIndex] keeps its initial value and [virtualItems] is empty, also
    when rows overlap the window. *)
Theorem short_content_renders_nothing (N : nat) (gk : Z → Key)
    (o sT lH : Z) (h : Z → Z) :
  (0 < N)%nat →
  let r := rangeCalc N gk o sT lH h in
  Forall (λ row, offsetTop row + height row < sT + lH) (allItems r) →
  endIndex r = -1 ∧ virtualItems r = [].
Proof.
  intros HN r Hall. subst r.
  rewrite rangeCalc_allItems in Hall.
  assert (He : endIndex (rangeCalc N gk o sT lH h) = -1).
  { apply rangeCalc_endIndex_none. apply findFirst_None. intros j Hj.
    apply (proj1 (rows_Forall gk h N _)) with (i := j) in Hall; [|done].
    simpl in *. rewrite Z.geb_leb, Z.leb_gt. lia. }
  split; [done|].
  unfold rangeCalc, memoFinish in *. simpl in *. rewrite He.
  apply slice_end_0.
Qed.

(** Ten 10px rows, overscan 1, window [25, 55): the first row passing 25
    is row 2, the first row reaching 55 is row 5; the range is [[1, 6]]. *)
Lemma range_boundaries_witness :
  let r := rangeCalc 10 keyOf 1 25 30 (λ _, 10) in
  allItems r !! 4%nat = Some (mkRow "4" 4 10 40) ∧
  startIndex r = 1 ∧ endIndex r = 6.
Proof.
  intros r.
  destruct (range_boundaries 10 keyOf 1 25 30 (λ _, 10)) as (Hrow & Hs & He).
  split; [apply (Hrow 4%nat); lia|]. split.
  - apply (Hs 2%nat). split; [lia|]. split; [simpl; lia|].
    intros [|[|j]] Hj; simpl; lia.
  - apply (He ltac:(lia) 5%nat). split; [lia|]. split; [simpl; lia|].
    intros [|[|[|[|[|j]]]]] Hj; simpl; lia.
Defined.

(** C1 as stated fails for a negative overscan: three 10px rows, window
    [0, 10), overscan -1.  Row 0 is the first row that reaches 10, and
    [min(2, 0 + -1)] is [-1], the value that stands for an unset
    [endIndex]: the next iteration sets it again, to 0. *)
Lemma range_boundaries_counterexample :
  let r := rangeCalc 3 keyOf (-1) 0 10 (λ _, 10) in
  firstIndexWith (λ i, 0 + 10 ≤ prefixSum (λ _, 10) i + 10) 3 0 ∧
  endIndex r = 0 ∧
  endIndex r ≠ Z.min (Z.of_nat 3 - 1) (Z.of_nat 0 + -1).
Proof.
  intros r. split.
  - split; [lia|]. split; [simpl; lia|]. intros j Hj. lia.
  - split; [reflexivity|]. change (endIndex r) with 0. lia.
Qed.

(** Rows of 10, 0 and 25 pixels: offsets 0, 10, 10 and a total of 35. *)
Lemma prefix_sum_invariant_witness :
  let r := rangeCalc 3 keyOf 3 0 20 unevenHeights in
  offsetTop <$> allItems r = [0; 10; 10] ∧ totalHeight r = 35 ∧
  (∀ i j ri rj, (i ≤ j)%nat →
     allItems r !! i = Some ri → allItems r !! j = Some rj →
     offsetTop ri ≤ offsetTop rj).
Proof.
  intros r.
  destruct (prefix_sum_invariant 3 keyOf 3 0 20
              unevenHeights)
    as (_ & _ & _ & Hmono & Htotal & _).
  split; [reflexivity|]. split; [exact Htotal|].
  apply Hmono. cbn. repeat constructor; by vm_compute.
Defined.

(** C4 as stated fails: one 10px row in a 600px viewport leaves [endIndex]
    at [-1], below [startIndex = 0] and outside [[0, 0]]; it is not set to
    the last index. *)
Lemma range_within_bounds_counterexample :
  let r := rangeCalc 1 keyOf 3 0 600 (λ _, 10) in
  (0 < 1)%nat ∧ 0 < 600 ∧
  Forall (λ row, offsetTop row + height row < 0 + 600) (allItems r) ∧
  ¬ (startIndex r ≤ endIndex r ∧
     0 ≤ startIndex r ≤ Z.of_nat 1 - 1 ∧ 0 ≤ endIndex r ≤ Z.of_nat 1 - 1) ∧
  endIndex r ≠ Z.of_nat 1 - 1.
Proof.
  intros r. split; [lia|]. split; [lia|]. split.
  - repeat constructor; simpl; lia.
  - change (startIndex r) with 0. change (endIndex r) with (-1). lia.
Qed.

(** Twenty 16px rows, viewport 100px at offset 40. *)
Lemma range_within_bounds_witness :
  let r := rangeCalc 20 keyOf 3 40 100 (λ _, 16) in
  0 ≤ 3 ∧ (0 < 20)%nat ∧ 0 < 100 ∧
  startIndex r ≤ endIndex r ∧
  0 ≤ startIndex r ≤ Z.of_nat 20 - 1 ∧ 0 ≤ endIndex r ≤ Z.of_nat 20 - 1.
Proof.
  intros r. split; [lia|]. split; [lia|]. split; [lia|].
  apply (range_within_bounds 20 keyOf 3 40 100 (λ _, 16)); [lia..|].
  apply Exists_exists. exists (mkRow "19" 19 16 304). split.
  - apply list_elem_of_lookup. exists 19%nat. reflexivity.
  - simpl. lia.
Defined.

(** C7 as stated fails: the state of the first render ([scrollTop = 0],
    [listHeight = 0]) over five 10px rows gives the range [[0, 3]]. *)
Lemma zero_viewport_range_counterexample :
  let r := rangeCalc 5 keyOf 3 0 0 (λ _, 10) in
  (0 < 5)%nat ∧ ¬ (startIndex r = -1 ∧ endIndex r = -1) ∧
  startIndex r = 0 ∧ endIndex r = 3 ∧ length (virtualItems r) = 4%nat.
Proof.
  intros r. split; [lia|].
  change (startIndex r) with 0. change (endIndex r) with 3.
  split; [lia|]. repeat split.
Qed.

Lemma zero_viewport_range_witness :
  let r := rangeCalc 5 keyOf 3 60 0 (λ _, 10) in
  0 ≤ 3 ∧ totalHeight r = 50 ∧ startIndex r = -1 ∧ endIndex r = -1.
Proof.
  intros r.
  destruct (zero_viewport_range 5 keyOf 3 60 (λ _, 10))
    as (_ & _ & _ & Hs & He & _); [lia|].
  split; [lia|]. split; [reflexivity|]. split.
  - apply Hs. repeat constructor; simpl; lia.
  - apply He. repeat constructor; simpl; lia.
Defined.

(** Five 10px rows fill [0, 50) of a 600px viewport: all of them overlap the
    window and none is returned. *)
Lemma short_content_renders_nothing_witness :
  let r := rangeCalc 5 keyOf 3 0 600 (λ _, 10) in
  (0 < 5)%nat ∧
  Forall (λ row, 0 < offsetTop row + height row ∧ offsetTop row < 0 + 600)
    (allItems r) ∧
  endIndex r = -1 ∧ virtualItems r = [].
Proof.
  intros r. split; [lia|]. split.
  - repeat constructor; simpl; lia.
  - apply (short_content_renders_nothing 5 keyOf 3 0 600 (λ _, 10)); [lia|].
    repeat constructor; simpl; lia.
Defined.

(** ** The memo of the hook *)

Lemma getItemHeight_resolved props cache :
  is_Some (itemHeight props) ∨ is_Some (estimateItemHeight props) →
  ∀ i, getItemHeight props cache i = Ok (resolvedHeight props cache i).
Proof.
  intros Hsome i. unfold getItemHeight, resolvedHeight.
  destruct (itemHeight props) as [f|]; [done|].
  destruct (cache !! _); [done|].
  destruct Hsome as [[? [=]]|[g ->]]. done.
Qed.

Lemma useMemoBody_rangeCalc props cache sT lH :
  is_Some (itemHeight props) ∨ is_Some (estimateItemHeight props) →
  useMemoBody props cache sT lH =
  Ok (rangeCalc (itemsCount props) (getItemKey props)
        (default DEFAULT_OVERSCAN (overscan props)) sT lH
        (resolvedHeight props cache)).
Proof.
  intros Hsome. apply memoBody_total. by apply getItemHeight_resolved.
Qed.

Lemma prefixSum_sumRange f n : prefixSum f n = sumRange f 0 n.
Proof.
  unfold sumRange. induction n as [|n IH]; [done|].
  rewrite seq_S, fmap_app, sumZ_app, <- IH. simpl. lia.
Qed.

Lemma resolvedHeight_fixed props f cache :
  itemHeight props = Some f → resolvedHeight props cache = f.
Proof. intros Hf. unfold resolvedHeight. by rewrite Hf. Qed.

Lemma slice_subseteq {A} (l : list A) a b x : x ∈ slice l a b → x ∈ l.
Proof.
  unfold slice. intros Hx.
  by apply subseteq_take, subseteq_drop in Hx.
Qed.

(** C8, amended. With a fixed-height function [h] supplied as [itemHeight],
    [totalHeight] is the sum of [h(i)] over all the indices
    [0 .. itemCount - 1], the last one included: the memo computes it for
    every cache and viewport state, and a render returns it when
    [validateProps] lets it through. *)
Theorem fixed_total_height (props : Props) (hf : Z → Z)
    (cache : gmap string Z) (sT lH : Z) :
  itemHeight props = Some hf →
  (∃ r, useMemoBody props cache sT lH = Ok r ∧
        totalHeight r = sumRange hf 0 (itemsCount props)) ∧
  (∀ st, validateProps props = Ok () →
     ∃ out st', render props st = Ok (out, st') ∧
                totalHeight out = sumRange hf 0 (itemsCount props)).
Proof.
  intros Hf.
  assert (Hsome : is_Some (itemHeight props) ∨
                  is_Some (estimateItemHeight props)) by (left; eauto).
  split.
  - eexists. split; [by apply useMemoBody_rangeCalc|].
    rewrite rangeCalc_totalHeight, (resolvedHeight_fixed _ hf) by done.
    apply prefixSum_sumRange.
  - intros st Hv. unfold render. rewrite Hv. simpl.
    rewrite useMemoBody_rangeCalc by done. simpl.
    eexists _, _. split; [done|].
    rewrite rangeCalc_totalHeight, (resolvedHeight_fixed _ hf) by done.
    apply prefixSum_sumRange.
Qed.

Lemma fixed_total_height_witness :
  itemHeight (fixedProps 3) = Some (λ _, 40) ∧
  ∃ r, useMemoBody (fixedProps 3) ∅ 0 600 = Ok r ∧ totalHeight r = 120.
Proof.
  split; [reflexivity|].
  destruct (fixed_total_height (fixedProps 3) (λ _, 40) ∅ 0 600 eq_refl)
    as [(r & Hr & Ht) _].
  exists r. split; [exact Hr | exact Ht].
Defined.

(** C8 as stated fails: for one 40px item the total is 40, while the sum
    over [[0, itemCount - 1)] is empty. *)
Lemma fixed_total_height_counterexample :
  ∃ r, useMemoBody (fixedProps 1) ∅ 0 600 = Ok r ∧
       totalHeight r = 40 ∧
       totalHeight r ≠ sumRange (λ _, 40) 0 (1 - 1).
Proof. eexists. split; [reflexivity|]. split; [reflexivity | done]. Qed.

(** C9, amended. With [itemHeight] supplied, every row of the memo has the
    height [itemHeight(index)] whatever the cache holds, and the whole
    result of the memo is the same for every cache: what the measurement
    callback writes there has no effect on it. *)
Theorem fixed_height_ignores_cache (props : Props) (hf : Z → Z)
    (cache : gmap string Z) (sT lH : Z) :
  itemHeight props = Some hf →
  ∃ r, useMemoBody props cache sT lH = Ok r ∧
       (∀ i row, allItems r !! i = Some row →
          index row = Z.of_nat i ∧ height row = hf (index row)) ∧
       (∀ row, row ∈ virtualItems r → height row = hf (index row)) ∧
       (∀ cache', useMemoBody props cache' sT lH = Ok r).
Proof.
  intros Hf.
  assert (Hsome : is_Some (itemHeight props) ∨
                  is_Some (estimateItemHeight props)) by (left; eauto).
  eexists. split; [by apply useMemoBody_rangeCalc|].
  rewrite (resolvedHeight_fixed _ hf) by done.
  assert (Hrows : ∀ i row,
    allItems (rangeCalc (itemsCount props) (getItemKey props)
                (default DEFAULT_OVERSCAN (overscan props)) sT lH hf) !! i
      = Some row →
    index row = Z.of_nat i ∧ height row = hf (index row)).
  { intros i row. rewrite rangeCalc_allItems.
    by intros [_ ->]%rows_lookup. }
  split; [done|]. split.
  - intros row Hin. apply slice_subseteq in Hin.
    apply list_elem_of_lookup in Hin as [i Hi].
    by apply (Hrows i).
  - intros cache'. rewrite useMemoBody_rangeCalc by done.
    by rewrite (resolvedHeight_fixed _ hf).
Qed.

Lemma fixed_height_ignores_cache_witness :
  itemHeight (fixedProps 3) = Some (λ _, 40) ∧
  ∃ r, useMemoBody (fixedProps 3) {[ "1" := 50 ]} 0 100 = Ok r ∧
       height <$> allItems r = [40; 40; 40] ∧
       useMemoBody (fixedProps 3) ∅ 0 100 = Ok r.
Proof.
  split; [reflexivity|].
  destruct (fixed_height_ignores_cache (fixedProps 3) (λ _, 40)
              {[ "1" := 50 ]} 0 100 eq_refl) as (r & Hr & _ & _ & Hc).
  exists r. split; [exact Hr|]. split; [|apply Hc].
  vm_compute in Hr. injection Hr as <-. reflexivity.
Defined.

(** ** Validation *)

Lemma validateProps_throws props :
  validateProps props = Throw ConfigError ↔
  itemsCount props = 0%nat ∧ estimateItemHeight props = None.
Proof.
  unfold validateProps.
  destruct (bool_decide_reflect (itemsCount props = 0%nat));
    destruct (bool_decide_reflect (estimateItemHeight props = None));
    simpl; split; try done; intros []; done.
Qed.

(** Without a height prop the first render throws all the same: for a
    non-empty collection it is the call of the absent [estimateItemHeight]
    for item 0 that does. *)
Lemma render_without_heights props :
  itemHeight props = None → estimateItemHeight props = None →
  render props initialState =
  Throw (if bool_decide (itemsCount props = 0%nat)
         then ConfigError else TypeError).
Proof.
  intros Hi He. unfold render, validateProps. rewrite He.
  destruct (bool_decide_reflect (itemsCount props = 0%nat)) as [H0|H0];
    simpl; [done|].
  unfold useMemoBody, memoBody.
  destruct (itemsCount props) as [|n]; [done|].
  assert (Hg : getItemHeight props ∅ 0 = Throw TypeError).
  { unfold getItemHeight. by rewrite Hi, He, lookup_empty. }
  simpl. by rewrite Hg.
Qed.

(** C3, at a failing input. With five items and neither [itemHeight] nor
    [estimateItemHeight], [validateProps] returns normally; the render goes
    on and ends with the [TypeError] of calling the absent estimate. With
    no items the configuration error is thrown. *)
Theorem validateProps_reads_itemsCount :
  itemHeight (bareProps 5) = None ∧
  estimateItemHeight (bareProps 5) = None ∧
  validateProps (bareProps 5) = Ok () ∧
  render (bareProps 5) initialState = Throw TypeError ∧
  validateProps (bareProps 0) = Throw ConfigError.
Proof. repeat split. Qed.

(** ** The measurement callback, for a given content of the ref *)

Lemma arrayGet_elem_of {A} (l : list A) i x : arrayGet l i = Some x → x ∈ l.
Proof.
  unfold arrayGet. destruct (i <? 0); [done|].
  apply list_elem_of_lookup_2.
Qed.

(** X19. For a connected element with a parsed index that addresses a row of
    the ref, whose height read differs from the row's and from the ref's
    cache entry, in a call no guard stops: the callback observes the
    element, issues one [scrollBy(0, delta)] when the row's [offsetTop] is
    below the ref's scroll offset and there is a scroll element, and then
    sets the cache; [delta] is the height read minus the row's height. *)
Lemma measureElementInner_compensates g latest el entry i item H2 :
  isConnected el = true →
  parseInt (default "" (data_index el)) = Some i →
  arrayGet (ld_allItems latest) i = Some item →
  default (rect_height el) (entry ≫= blockSize) = H2 →
  is_Some entry ∨ ld_measurementCache latest !! ld_getItemKey latest i = None →
  ld_measurementCache latest !! ld_getItemKey latest i ≠ Some H2 →
  H2 ≠ height item →
  measureElementInner g latest (Some el) entry =
  (Observe (el_id el) ::
     (if bool_decide (offsetTop item < ld_scrollTop latest) && g
      then [ScrollBy 0 (H2 - height item)] else []) ++
     [SetMeasurementCache (ld_getItemKey latest i) H2],
   None).
Proof.
  intros Hc Hp Hitem HH2 Hinit Hne Hd.
  unfold measureElementInner. rewrite Hc, Hp, HH2, Hitem.
  destruct item as [ik ii ih io]. simpl in *.
  replace (negb (bool_decide (is_Some entry)) && _) with false.
  2:{ destruct Hinit as [He|Hn].
      - by rewrite (bool_decide_eq_true_2 _ He).
      - rewrite Hn, andb_comm. rewrite bool_decide_eq_false_2; [done|].
        by intros [? [=]]. }
  rewrite (bool_decide_eq_false_2 _ Hne).
  replace (H2 - ih =? 0) with false
    by (symmetry; apply Z.eqb_neq; lia).
  simpl. rewrite Z.gtb_ltb.
  destruct (Z.ltb_spec io (ld_scrollTop latest)).
  - rewrite bool_decide_eq_true_2 by done. by destruct g.
  - rewrite bool_decide_eq_false_2 by lia. done.
Qed.

(** A registration of an element whose key the ref's cache holds: only
    [observe]. *)
Lemma measureElementInner_registered g latest el i :
  isConnected el = true →
  parseInt (default "" (data_index el)) = Some i →
  is_Some (ld_measurementCache latest !! ld_getItemKey latest i) →
  measureElementInner g latest (Some el) None = ([Observe (el_id el)], None).
Proof.
  intros Hc Hp Hk. unfold measureElementInner. rewrite Hc, Hp. simpl.
  by rewrite (bool_decide_eq_true_2 _ Hk).
Qed.

(** No row of the ref lies above the ref's scroll offset: no [scrollBy]. *)
Lemma measureElementInner_no_scroll g latest el entry :
  Forall (λ row, ld_scrollTop latest ≤ offsetTop row) (ld_allItems latest) →
  Forall (λ e, isScrollAdjust e = false)
    (measureElementInner g latest el entry).1.
Proof.
  intros Hrows. unfold measureElementInner.
  destruct el as [el|]; [|by constructor].
  destruct (isConnected el); simpl; [|by repeat constructor].
  destruct (parseInt _) as [i|]; [|by repeat constructor].
  destruct (_ && _); [by repeat constructor|].
  destruct (bool_decide _); [by repeat constructor|].
  destruct (arrayGet _ i) as [item|] eqn:Hitem; [|by repeat constructor].
  apply arrayGet_elem_of in Hitem.
  rewrite Forall_forall in Hrows. specialize (Hrows item Hitem).
  destruct item as [ik ii ih io].
  simpl in *. replace (ld_scrollTop latest >? io) with false.
  2:{ symmetry. rewrite Z.gtb_ltb. apply Z.ltb_ge. lia. }
  rewrite andb_false_r. by repeat constructor.
Qed.

(** ** The ref of [useLatest] across renders *)

Lemma commit_latest st effects :
  hs_latest (foldl commitEffect st effects) = hs_latest st.
Proof.
  revert st. induction effects as [|e effects IH]; intros st; [done|].
  simpl. rewrite IH. by destruct e.
Qed.

Lemma dispatch_latest props st ev :
  hs_latest (dispatch props st ev).2 = hs_latest st.
Proof.
  destruct ev; simpl; try (by destruct (getScrollElement props));
    unfold measure; destruct (hs_latest st) eqn:E; simpl;
    by rewrite ?commit_latest.
Qed.

Lemma render_latest props st out st' l :
  render props st = Ok (out, st') →
  hs_latest st = Some l → hs_latest st' = Some l.
Proof.
  unfold render. destruct (validateProps props); [|done]. simpl.
  destruct (useMemoBody _ _ _ _); [|done]. simpl.
  intros [= <- <-] Hl. simpl. by rewrite Hl.
Qed.

Lemma render_mount props out st :
  render props initialState = Ok (out, st) →
  hs_latest st =
  Some {| ld_measurementCache := ∅; ld_getItemKey := getItemKey props;
          ld_allItems := allItems out;
          ld_getScrollElement := getScrollElement props;
          ld_scrollTop := 0 |}.
Proof.
  unfold render. destruct (validateProps props); [|done]. simpl.
  destruct (useMemoBody _ _ _ _); [|done]. simpl.
  by intros [= <- <-].
Qed.

Lemma render_mount_heights props out st :
  render props initialState = Ok (out, st) →
  is_Some (itemHeight props) ∨ is_Some (estimateItemHeight props).
Proof.
  intros Hr.
  destruct (itemHeight props) eqn:Hi; [left; eauto|].
  destruct (estimateItemHeight props) eqn:He; [right; eauto|].
  by rewrite render_without_heights in Hr.
Qed.

Lemma render_after_dispatch props st ev effects st1 out2 st2 l :
  hs_latest st = Some l →
  dispatch props st ev = (effects, st1) →
  render props st1 = Ok (out2, st2) →
  hs_latest st2 = Some l.
Proof.
  intros Hl Hd Hr. eapply render_latest; [exact Hr|].
  pose proof (dispatch_latest props st ev) as Hdl.
  rewrite Hd in Hdl. simpl in Hdl. by rewrite Hdl.
Qed.

(** One step of [runEvents] that did not throw. *)
Ltac runEvents_step props st ev events :=
  let effects := fresh "effects" in
  let st1 := fresh "st1" in
  let out2 := fresh "out2" in
  let st2 := fresh "st2" in
  destruct (dispatch props st ev) as [effects st1] eqn:Hd;
  destruct (render props st1) as [[out2 st2]|] eqn:Hr; [|done];
  simpl;
  destruct (runEvents props out2 st2 events) as [[[? ?] ?]|] eqn:Hrun;
    [|done];
  simpl.

(** The ref never moves off the data of the first render. *)
Lemma runEvents_latest props l events : ∀ out st trace outN stN,
  hs_latest st = Some l →
  runEvents props out st events = Ok (trace, outN, stN) →
  hs_latest stN = Some l.
Proof.
  induction events as [|ev events IH]; intros out st trace outN stN Hl; simpl.
  - by intros [= _ _ <-].
  - runEvents_step props st ev events.
    intros [= _ _ <-]. eapply IH; [|eassumption].
    by eapply render_after_dispatch.
Qed.

Lemma dispatch_no_scroll props st ev l :
  Forall (λ row, ld_scrollTop l ≤ offsetTop row) (ld_allItems l) →
  hs_latest st = Some l →
  Forall (λ e, isScrollAdjust e = false) (dispatch props st ev).1.
Proof.
  intros Hrows Hl. destruct ev; cbn [dispatch]; [constructor..| |];
    unfold measure; rewrite Hl; cbn [fst];
    by apply measureElementInner_no_scroll.
Qed.

Lemma runEvents_no_scroll props l events : ∀ out st trace outN stN,
  Forall (λ row, ld_scrollTop l ≤ offsetTop row) (ld_allItems l) →
  hs_latest st = Some l →
  runEvents props out st events = Ok (trace, outN, stN) →
  Forall (Forall (λ e, isScrollAdjust e = false)) trace.
Proof.
  induction events as [|ev events IH];
    intros out st trace outN stN Hrows Hl; simpl.
  - intros [= <- _ _]. constructor.
  - runEvents_step props st ev events.
    intros [= <- _ _]. constructor.
    + pose proof (dispatch_no_scroll props st ev l Hrows Hl) as Hns.
      by rewrite Hd in Hns.
    + eapply IH; [done| |eassumption].
      by eapply render_after_dispatch.
Qed.

Lemma prefixSum_nonneg h k :
  (∀ i, 0 ≤ h i) → 0 ≤ prefixSum h k.
Proof.
  intros Hh. change 0 with (prefixSum h 0) at 1.
  apply prefixSum_mono; [lia|]. intros; apply Hh.
Qed.

(** X20. After any events the ref holds scroll offset 0, the empty cache
    and the rows of the first render; with non-negative heights no
    measurement of the run ever issues a scroll adjustment. *)
Lemma run_latest_frozen props events trace out st :
  run props events = Ok (trace, out, st) →
  ∃ l, hs_latest st = Some l ∧ ld_scrollTop l = 0 ∧
       ld_measurementCache l = ∅ ∧
       ((∀ i, 0 ≤ resolvedHeight props ∅ i) →
        Forall (Forall (λ e, isScrollAdjust e = false)) trace).
Proof.
  unfold run.
  destruct (render props initialState) as [[out0 st0]|] eqn:Hr; [|done].
  simpl. intros Hrun.
  pose proof (render_mount _ _ _ Hr) as Hl.
  eexists. split; [by eapply runEvents_latest|].
  split; [done|]. split; [done|]. intros Hh.
  eapply runEvents_no_scroll; [|exact Hl|exact Hrun]. simpl.
  pose proof (render_mount_heights _ _ _ Hr) as Hsome.
  unfold render in Hr. destruct (validateProps props); [|done]. simpl in Hr.
  rewrite useMemoBody_rangeCalc in Hr by done. simpl in Hr.
  injection Hr as <- _. rewrite rangeCalc_allItems.
  apply rows_Forall. intros i _. simpl. by apply prefixSum_nonneg.
Qed.

(** ** Claims on the measurement callback *)

(** C5, at a failing input. A hundred rows estimated at 16px, in a 600px
    viewport scrolled to 1000: row 59 is the first row rendered, at
    [offsetTop = 944], above the scroll offset. Its element measures 50px.
    The callback reads the scroll offset 0 of the first render from the ref,
    so it commits the new height without any scroll adjustment; run on the
    data of the current render it issues [scrollBy(0, 34)] before the
    commit. *)
Theorem compensation_reads_first_render :
  ∃ out st,
    run (demoProps 100) [ViewportResize 600; ScrollTo 1000]
      = Ok ([[]; []], out, st) ∧
    hs_scrollTop st = 1000 ∧
    startIndex out = 59 ∧
    allItems out !! 59%nat = Some (mkRow "59" 59 16 944) ∧
    ld_scrollTop <$> hs_latest st = Some 0 ∧
    (dispatch (demoProps 100) st (MeasureElement (Some (rowElement 59 50)))).1
      = [Observe 59; SetMeasurementCache "59" 50] ∧
    (measureElementInner true
       {| ld_measurementCache := hs_measurementCache st;
          ld_getItemKey := keyOf; ld_allItems := allItems out;
          ld_getScrollElement := true; ld_scrollTop := hs_scrollTop st |}
       (Some (rowElement 59 50)) None).1
      = [Observe 59; ScrollBy 0 34; SetMeasurementCache "59" 50].
Proof.
  eexists _, _. split; [vm_compute; reflexivity|].
  repeat split.
Qed.

(** C6, at a failing input. Row 0 is registered and measured at 50px, which
    puts its key in the cache. The same element is registered again, its
    size unchanged: the callback tests the empty cache of the first render,
    does not skip, and commits the height a second time; run on the data of
    the current render it only observes the element. *)
Theorem repeated_registration_commits_again :
  ∃ out st,
    run (demoProps 100)
        [ViewportResize 600; MeasureElement (Some (rowElement 0 50))]
      = Ok ([[]; [Observe 0; SetMeasurementCache "0" 50]], out, st) ∧
    hs_measurementCache st !! "0" = Some 50 ∧
    ld_measurementCache <$> hs_latest st = Some ∅ ∧
    (dispatch (demoProps 100) st (MeasureElement (Some (rowElement 0 50)))).1
      = [Observe 0; SetMeasurementCache "0" 50] ∧
    (measureElementInner true
       {| ld_measurementCache := hs_measurementCache st;
          ld_getItemKey := keyOf; ld_allItems := allItems out;
          ld_getScrollElement := true; ld_scrollTop := hs_scrollTop st |}
       (Some (rowElement 0 50)) None).1
      = [Observe 0].
Proof.
  eexists _, _. split; [vm_compute; reflexivity|].
  repeat split.
Qed.

(** C9 as stated fails: with [itemHeight] supplied, registering a row
    element that measures 50px writes that height into the cache. *)
Lemma fixed_height_ignores_cache_counterexample :
  itemHeight (fixedProps 5) = Some (λ _, 40) ∧
  ∃ effects out st,
    run (fixedProps 5) [MeasureElement (Some (rowElement 0 50))]
      = Ok ([effects], out, st) ∧
    existsb isCacheWrite effects = true ∧
    hs_measurementCache st !! "0" = Some 50.
Proof.
  split; [reflexivity|].
  eexists _, _, _. split; [vm_compute; reflexivity|].
  split; reflexivity.
Qed.

(** * Further properties *)

(** ** The rendered slice *)

Lemma slice_in_range {A} (l : list A) a b :
  0 ≤ a ≤ Z.of_nat (length l) → 0 ≤ b ≤ Z.of_nat (length l) →
  slice l a b = take (Z.to_nat (b - a)) (drop (Z.to_nat a) l).
Proof.
  intros Ha Hb. unfold slice. cbv zeta.
  destruct (Z.ltb_spec a 0); [lia|]. destruct (Z.ltb_spec b 0); [lia|].
  by rewrite !Z.min_l by lia.
Qed.

Lemma of_nat_seq a m : Z.of_nat <$> seq a m = seqZ (Z.of_nat a) (Z.of_nat m).
Proof.
  apply list_eq. intros i. rewrite list_lookup_fmap.
  destruct (decide (i < m)%nat) as [Hi|Hi].
  - rewrite lookup_seq_lt, lookup_seqZ_lt by lia. simpl. f_equal. lia.
  - rewrite lookup_seq_ge, lookup_seqZ_ge by lia. done.
Qed.

(** With a resolved [startIndex] the slice is the run of rows from
    [startIndex] to [endIndex]. *)
Lemma virtualItems_rows N gk o sT lH h :
  0 ≤ o →
  startIndex (rangeCalc N gk o sT lH h) ≠ -1 →
  ∃ a m,
    startIndex (rangeCalc N gk o sT lH h) = Z.of_nat a ∧
    Z.of_nat m =
      Z.max 0 (endIndex (rangeCalc N gk o sT lH h) + 1 - Z.of_nat a) ∧
    (a + m ≤ N)%nat ∧
    virtualItems (rangeCalc N gk o sT lH h) = rowAt gk h <$> seq a m.
Proof.
  intros Ho Hs.
  change (virtualItems (rangeCalc N gk o sT lH h))
    with (slice (allItems (rangeCalc N gk o sT lH h))
            (startIndex (rangeCalc N gk o sT lH h))
            (endIndex (rangeCalc N gk o sT lH h) + 1)).
  revert Hs.
  rewrite rangeCalc_allItems, rangeCalc_startIndex, rangeCalc_endIndex by done.
  destruct (findFirst (λ i, _ >? _) N) as [s|] eqn:Es; [|done]. intros _.
  apply findFirst_lt in Es.
  assert (Hb : -1 ≤
    match findFirst (λ i, prefixSum h i + h (Z.of_nat i) >=? sT + lH) N with
    | Some e => Z.min (Z.of_nat N - 1) (Z.of_nat e + o)
    | None => -1
    end ≤ Z.of_nat N - 1).
  { destruct (findFirst (λ i, _ >=? _) N) as [e|] eqn:Ee; [|lia].
    apply findFirst_lt in Ee. lia. }
  set (b := match findFirst (λ i, _ >=? _) N with
            | Some e => _ | None => _ end) in *.
  set (a := Z.max 0 (Z.of_nat s - o)).
  exists (Z.to_nat a), (Z.to_nat (b + 1 - a)).
  assert (0 ≤ a ≤ Z.of_nat N - 1) by (unfold a; lia).
  split; [lia|]. split; [lia|]. split; [lia|].
  rewrite slice_in_range by (rewrite length_fmap, length_seq; lia).
  rewrite <- fmap_drop, <- fmap_take, drop_seq, take_seq.
  f_equal. f_equal; lia.
Qed.

(** X1. When [startIndex] is resolved, [virtualItems] are the rows with the
    indices [startIndex .. endIndex], in this order, each of them the row
    [allItems] holds at its index. *)
Theorem virtualItems_are_the_range (N : nat) (gk : Z → Key) (o sT lH : Z)
    (h : Z → Z) :
  0 ≤ o →
  let r := rangeCalc N gk o sT lH h in
  startIndex r ≠ -1 →
  index <$> virtualItems r
    = seqZ (startIndex r) (endIndex r + 1 - startIndex r) ∧
  (∀ row, row ∈ virtualItems r →
     allItems r !! Z.to_nat (index row) = Some row).
Proof.
  intros Ho r Hs. subst r.
  destruct (virtualItems_rows N gk o sT lH h Ho Hs)
    as (a & m & Ha & Hm & Ham & ->).
  rewrite Ha. split.
  - rewrite <- list_fmap_compose.
    change (index ∘ rowAt gk h) with Z.of_nat.
    rewrite of_nat_seq. unfold seqZ. do 2 f_equal. lia.
  - intros row (i & -> & Hi)%list_elem_of_fmap.
    apply elem_of_seq in Hi. rewrite rangeCalc_allItems. simpl.
    rewrite Nat2Z.id. apply rows_lookup. split; [lia | done].
Qed.

Lemma virtualItems_are_the_range_witness :
  0 ≤ 1 ∧
  index <$> virtualItems (rangeCalc 8 keyOf 1 25 30 (λ _, 10))
    = [1; 2; 3; 4; 5; 6].
Proof.
  split; [lia|].
  destruct (virtualItems_are_the_range 8 keyOf 1 25 30 (λ _, 10))
    as [Hidx _]; [lia | by vm_compute |].
  rewrite Hidx. reflexivity.
Defined.

(** X2. With non-negative heights and a row that reaches the end of the
    window, every row that overlaps the window
    [[scrollOffset, scrollOffset + viewportHeight)] is among
    [virtualItems]. *)
Theorem visible_rows_are_rendered (N : nat) (gk : Z → Key) (o sT lH : Z)
    (h : Z → Z) :
  0 ≤ o →
  let r := rangeCalc N gk o sT lH h in
  Forall (λ row, 0 ≤ height row) (allItems r) →
  Exists (λ row, sT + lH ≤ offsetTop row + height row) (allItems r) →
  ∀ row, row ∈ allItems r →
    sT < offsetTop row + height row → offsetTop row < sT + lH →
    row ∈ virtualItems r.
Proof.
  intros Ho r Hh Hex row Hin Hover Hbelow. subst r.
  rewrite rangeCalc_allItems in Hh, Hex, Hin.
  apply list_elem_of_lookup in Hin as [i [Hi ->]%rows_lookup].
  pose proof (proj1 (rows_Forall gk h N _) Hh) as Hnn. simpl in Hnn.
  apply Exists_exists in Hex as (rowE & HinE & HrowE).
  apply list_elem_of_lookup in HinE as [e0 [He0 ->]%rows_lookup].
  destruct (findFirst (λ i, prefixSum h i + h (Z.of_nat i) >? sT) N)
    as [s|] eqn:Es.
  2:{ pose proof (proj1 (findFirst_None _ _) Es i Hi) as Hf.
      simpl in *. rewrite Z.gtb_ltb, Z.ltb_ge in Hf. lia. }
  destruct (findFirst (λ i, prefixSum h i + h (Z.of_nat i) >=? sT + lH) N)
    as [e|] eqn:Ee.
  2:{ pose proof (proj1 (findFirst_None _ _) Ee e0 He0) as Hf.
      simpl in *. rewrite Z.geb_leb, Z.leb_gt in Hf. lia. }
  assert (Hsi : (s ≤ i)%nat).
  { apply findFirst_Some in Es as (_ & _ & Hmin).
    destruct (decide (s ≤ i)%nat) as [|Hn]; [done|].
    specialize (Hmin i ltac:(lia)). simpl in *.
    rewrite Z.gtb_ltb, Z.ltb_ge in Hmin. lia. }
  assert (Hie : (i ≤ e)%nat).
  { apply findFirst_Some in Ee as (Hlt & HP & _).
    apply (end_test_spec gk) in HP. simpl in HP.
    destruct (decide (i ≤ e)%nat) as [|Hn]; [done|].
    assert (prefixSum h (S e) ≤ prefixSum h i).
    { apply prefixSum_mono; [lia|]. intros k Hk. apply Hnn. lia. }
    simpl in *. lia. }
  assert (Hstart : startIndex (rangeCalc N gk o sT lH h)
                   = Z.max 0 (Z.of_nat s - o))
    by (by rewrite rangeCalc_startIndex, Es).
  assert (Hend : endIndex (rangeCalc N gk o sT lH h)
                 = Z.min (Z.of_nat N - 1) (Z.of_nat e + o))
    by (by rewrite rangeCalc_endIndex, Ee).
  destruct (virtualItems_rows N gk o sT lH h Ho)
    as (a & m & Ha & Hm & Ham & ->); [rewrite Hstart; lia|].
  rewrite Hstart in Ha. rewrite Hend in Hm.
  apply list_elem_of_fmap_2, elem_of_seq. lia.
Qed.

Lemma visible_rows_are_rendered_witness :
  0 ≤ 0 ∧
  mkRow "2" 2 10 20 ∈ virtualItems (rangeCalc 8 keyOf 0 25 30 (λ _, 10)).
Proof.
  split; [lia|].
  apply (visible_rows_are_rendered 8 keyOf 0 25 30 (λ _, 10)).
  - lia.
  - repeat constructor; by vm_compute.
  - apply Exists_exists. exists (mkRow "7" 7 10 70).
    split; [|by vm_compute].
    apply list_elem_of_lookup. by exists 7%nat.
  - apply list_elem_of_lookup. by exists 2%nat.
  - by vm_compute.
  - by vm_compute.
Defined.

(** ** When the memo throws *)

Lemma forLoop_ok body g r : ∀ idx st,
  (∀ j, (j < r)%nat → ∃ v, g (idx + Z.of_nat j) = Ok v) →
  ∃ st', forLoop body g r idx st = Ok st'.
Proof.
  induction r as [|r IH]; intros idx st Hg; simpl; [eauto|].
  destruct (Hg 0%nat ltac:(lia)) as [v Hv].
  rewrite Z.add_0_r in Hv. rewrite Hv. simpl. apply IH.
  intros j Hj. destruct (Hg (S j) ltac:(lia)) as [w Hw]. exists w.
  rewrite <- Hw. f_equal. lia.
Qed.

Lemma forLoop_throw body g r : ∀ idx st e,
  forLoop body g r idx st = Throw e →
  ∃ j, (j < r)%nat ∧ g (idx + Z.of_nat j) = Throw e.
Proof.
  induction r as [|r IH]; intros idx st e; simpl; [done|].
  destruct (g idx) as [v|e'] eqn:Hv; simpl.
  - intros (j & Hj & Hg)%IH. exists (S j). split; [lia|].
    rewrite <- Hg. f_equal. lia.
  - intros [= ->]. exists 0%nat. split; [lia|]. by rewrite Z.add_0_r.
Qed.

(** X3. For an [itemsCount] that [Array(itemsCount)] accepts, the memo
    throws only a [TypeError], and it does exactly when both height props
    are absent and the cache misses the key of some item. *)
Theorem useMemoBody_throws (props : Props) (cache : gmap string Z)
    (sT lH : Z) :
  validArrayLength (itemsCount props) →
  (∀ e, useMemoBody props cache sT lH = Throw e → e = TypeError) ∧
  (useMemoBody props cache sT lH = Throw TypeError ↔
   itemHeight props = None ∧ estimateItemHeight props = None ∧
   ∃ i, (i < itemsCount props)%nat ∧
        cache !! getItemKey props (Z.of_nat i) = None).
Proof.
  intros _.
  assert (Hthrow : ∀ e, useMemoBody props cache sT lH = Throw e →
    e = TypeError ∧ itemHeight props = None ∧
    estimateItemHeight props = None ∧
    ∃ i, (i < itemsCount props)%nat ∧
         cache !! getItemKey props (Z.of_nat i) = None).
  { intros e. unfold useMemoBody, memoBody.
    destruct (forLoop _ _ _ _ _) as [st|e'] eqn:Hloop; [done|].
    simpl. intros [= ->].
    apply forLoop_throw in Hloop as (j & Hj & Hg).
    rewrite Z.add_0_l in Hg. unfold getItemHeight in Hg.
    destruct (itemHeight props); [done|].
    destruct (cache !! _) eqn:Hc; [done|].
    destruct (estimateItemHeight props); [done|].
    injection Hg as <-. eauto 10. }
  split; [intros e He; by destruct (Hthrow e He) as [-> _]|]. split.
  - intros He. by destruct (Hthrow _ He) as (_ & ? & ? & ?).
  - intros (Hi & He & i & Hlt & Hc). unfold useMemoBody, memoBody.
    destruct (forLoop _ _ _ _ _) as [st|e'] eqn:Hloop; simpl.
    + exfalso. revert Hloop.
      generalize (loopBody (itemsCount props) (getItemKey props)
                    (default DEFAULT_OVERSCAN (overscan props)) sT (sT + lH)).
      intros body.
      assert (Hgen : ∀ r idx st0,
        (Z.to_nat idx ≤ i < Z.to_nat idx + r)%nat → 0 ≤ idx →
        forLoop body (getItemHeight props cache) r idx st0 ≠ Ok st).
      { induction r as [|r IH]; intros idx st0 Hr Hidx; simpl; [lia|].
        destruct (decide (Z.to_nat idx = i)) as [<-|Hne].
        - rewrite Z2Nat.id in Hc by done.
          assert (Hg : getItemHeight props cache idx = Throw TypeError).
          { unfold getItemHeight. rewrite Hi, He. cbv zeta. by rewrite Hc. }
          by rewrite Hg.
        - destruct (getItemHeight props cache idx); simpl; [|done].
          apply IH; lia. }
      apply Hgen; lia.
    + f_equal. enough (e' = TypeError ∧ True) by tauto.
      destruct (Hthrow e') as [-> _]; [|done].
      unfold useMemoBody, memoBody. by rewrite Hloop.
Qed.

(** With an empty cache and five items the first key is missing. *)
Lemma useMemoBody_throws_witness :
  validArrayLength (itemsCount (bareProps 5)) ∧
  useMemoBody (bareProps 5) ∅ 0 600 = Throw TypeError ∧
  (∃ r, useMemoBody (bareProps 1) {[ "0" := 30 ]} 0 600 = Ok r ∧
        totalHeight r = 30).
Proof.
  assert (Hlen : validArrayLength (itemsCount (bareProps 5)))
    by (unfold validArrayLength; simpl; lia).
  split; [exact Hlen|]. split.
  - apply (useMemoBody_throws (bareProps 5) ∅ 0 600 Hlen).
    split; [done|]. split; [done|]. exists 0%nat.
    split; [simpl; lia | reflexivity].
  - eexists. split; reflexivity.
Defined.

(** ** Rows of one height *)

Lemma prefixSum_const c k : prefixSum (λ _, c) k = Z.of_nat k * c.
Proof. induction k as [|k IH]; simpl; lia. Qed.

Lemma findFirst_threshold (P : nat → bool) (N s : nat) :
  (s < N)%nat → P s = true → (∀ j, (j < s)%nat → P j = false) →
  findFirst P N = Some s.
Proof. intros. by apply findFirst_Some. Qed.

(** X4. For integer pixel values within the safe range, where the sums of
    the code are exact: for rows that all have the height [c > 0] and a
    scroll offset [>= 0], [totalHeight] is [itemsCount * c]; [startIndex] is
    [floor(scrollOffset / c)] widened and clamped, or [-1] when the offset is
    at or past the end of the content; [endIndex] is
    [floor((scrollOffset + viewportHeight - 1) / c)] widened and clamped,
    or [-1] when the window ends past the content. *)
Theorem uniform_rows (N : nat) (gk : Z → Key) (o sT lH c : Z) :
  validArrayLength N →
  safeInteger (Z.of_nat N * c) → safeInteger sT → safeInteger lH →
  safeInteger (sT + lH) → safeInteger (Z.of_nat N + o) →
  0 < c → 0 ≤ o → 0 ≤ sT →
  let r := rangeCalc N gk o sT lH (λ _, c) in
  totalHeight r = Z.of_nat N * c ∧
  (sT < Z.of_nat N * c → startIndex r = Z.max 0 (sT / c - o)) ∧
  (Z.of_nat N * c ≤ sT → startIndex r = -1) ∧
  (0 < sT + lH ≤ Z.of_nat N * c →
   endIndex r = Z.min (Z.of_nat N - 1) ((sT + lH - 1) / c + o)) ∧
  (Z.of_nat N * c < sT + lH → endIndex r = -1).
Proof.
  intros _ _ _ _ _ _ Hc Ho HsT r. subst r.
  rewrite rangeCalc_totalHeight, rangeCalc_startIndex, rangeCalc_endIndex,
    prefixSum_const by done.
  split; [done|]. split; [|split; [|split]].
  - intros Hlt.
    pose proof (Z.div_mod sT c ltac:(lia)) as Hdm.
    pose proof (Z.mod_pos_bound sT c Hc) as Hmod.
    assert (0 ≤ sT / c) by (apply Z.div_pos; lia).
    assert (sT / c < Z.of_nat N) by (apply Z.div_lt_upper_bound; lia).
    rewrite (findFirst_threshold _ N (Z.to_nat (sT / c))).
    + by rewrite Z2Nat.id.
    + lia.
    + rewrite prefixSum_const, Z.gtb_ltb, Z.ltb_lt, Z2Nat.id by done. nia.
    + intros j Hj. rewrite prefixSum_const, Z.gtb_ltb, Z.ltb_ge. nia.
  - intros Hge.
    replace (findFirst _ N) with (@None nat); [done|].
    symmetry. apply findFirst_None. intros j Hj.
    rewrite prefixSum_const, Z.gtb_ltb, Z.ltb_ge. nia.
  - intros [Hpos Hle].
    pose proof (Z.div_mod (sT + lH - 1) c ltac:(lia)) as Hdm.
    pose proof (Z.mod_pos_bound (sT + lH - 1) c Hc) as Hmod.
    assert (0 ≤ (sT + lH - 1) / c) by (apply Z.div_pos; lia).
    assert ((sT + lH - 1) / c < Z.of_nat N)
      by (apply Z.div_lt_upper_bound; lia).
    rewrite (findFirst_threshold _ N (Z.to_nat ((sT + lH - 1) / c))).
    + by rewrite Z2Nat.id.
    + lia.
    + rewrite prefixSum_const, Z.geb_leb, Z.leb_le, Z2Nat.id by done. nia.
    + intros j Hj. rewrite prefixSum_const, Z.geb_leb, Z.leb_gt. nia.
  - intros Hgt.
    replace (findFirst _ N) with (@None nat); [done|].
    symmetry. apply findFirst_None. intros j Hj.
    rewrite prefixSum_const, Z.geb_leb, Z.leb_gt. nia.
Qed.

(** Twenty thousand rows of 16 pixels in a 600 pixel viewport at the top:
    the range is [[0, 40]] and the content is 320000 pixels high. *)
Lemma uniform_rows_witness :
  let N := Z.to_nat 20000 in
  validArrayLength N ∧ safeInteger (Z.of_nat N * 16) ∧
  totalHeight (rangeCalc N keyOf 3 0 600 (λ _, 16)) = 320000 ∧
  startIndex (rangeCalc N keyOf 3 0 600 (λ _, 16)) = 0 ∧
  endIndex (rangeCalc N keyOf 3 0 600 (λ _, 16)) = 40.
Proof.
  intros N.
  assert (HN : Z.of_nat N = 20000) by (subst N; lia).
  assert (Hlen : validArrayLength N)
    by (unfold validArrayLength; rewrite HN; lia).
  assert (Hsafe : ∀ z, -9007199254740991 ≤ z ≤ 9007199254740991 →
                       safeInteger z) by (by intros z Hz).
  assert (Htotal : safeInteger (Z.of_nat N * 16))
    by (apply Hsafe; rewrite HN; lia).
  split; [exact Hlen|]. split; [exact Htotal|].
  destruct (uniform_rows N keyOf 3 0 600 16 Hlen Htotal)
    as (Ht & Hs & _ & He & _);
    [apply Hsafe; lia | apply Hsafe; lia | apply Hsafe; lia
    | apply Hsafe; rewrite HN; lia | lia | lia | lia |].
  rewrite HN in *.
  split; [rewrite Ht; lia|]. split.
  - rewrite Hs by lia. reflexivity.
  - rewrite He by lia. reflexivity.
Defined.

(** ** Overscan *)

(** X5. A larger overscan never narrows the range: with
    [0 <= o1 <= o2], [startIndex] for [o2] is at most the one for [o1] and
    [endIndex] for [o2] is at least the one for [o1]. *)
Theorem overscan_widens (N : nat) (gk : Z → Key) (o1 o2 sT lH : Z)
    (h : Z → Z) :
  0 ≤ o1 ≤ o2 →
  startIndex (rangeCalc N gk o2 sT lH h)
    ≤ startIndex (rangeCalc N gk o1 sT lH h) ∧
  endIndex (rangeCalc N gk o1 sT lH h)
    ≤ endIndex (rangeCalc N gk o2 sT lH h).
Proof.
  intros Ho.
  rewrite !rangeCalc_startIndex, !rangeCalc_endIndex by lia.
  destruct (findFirst (λ i, _ >? _) N), (findFirst (λ i, _ >=? _) N); lia.
Qed.

Lemma overscan_widens_witness :
  0 ≤ 1 ≤ 3 ∧
  startIndex (rangeCalc 20 keyOf 3 100 50 (λ _, 10)) ≤ 9 ∧
  14 ≤ endIndex (rangeCalc 20 keyOf 3 100 50 (λ _, 10)).
Proof.
  split; [lia|].
  destruct (overscan_widens 20 keyOf 1 3 100 50 (λ _, 10)) as [Hs He];
    [lia|].
  split.
  - etransitivity; [exact Hs | by vm_compute].
  - etransitivity; [|exact He]. by vm_compute.
Defined.

(** ** A measurement and the next computation *)

Lemma prefixSum_update h h' (i : nat) d k :
  (∀ j, (j < k)%nat → j ≠ i → h' (Z.of_nat j) = h (Z.of_nat j)) →
  h' (Z.of_nat i) = h (Z.of_nat i) + d →
  prefixSum h' k = prefixSum h k + (if decide (i < k)%nat then d else 0).
Proof.
  intros Hother Hi. induction k as [|k IH].
  - cbn [prefixSum]. destruct (decide (i < 0)%nat); lia.
  - cbn [prefixSum]. rewrite IH by (intros; apply Hother; lia).
    destruct (decide (i < k)%nat), (decide (i < S k)%nat),
      (decide (k = i)) as [->|Hne];
      try lia; rewrite ?Hi, ?Hother by lia; lia.
Qed.

Lemma resolvedHeight_insert props cache (i j : nat) H :
  itemHeight props = None →
  resolvedHeight props
    (<[getItemKey props (Z.of_nat i) := H]> cache) (Z.of_nat j) =
  if decide (getItemKey props (Z.of_nat j) = getItemKey props (Z.of_nat i))
  then H else resolvedHeight props cache (Z.of_nat j).
Proof.
  intros Hi. unfold resolvedHeight. rewrite Hi. case_decide as Hk.
  - by rewrite Hk, lookup_insert_eq.
  - by rewrite lookup_insert_ne.
Qed.

(** X6. For integer heights whose sums stay within the safe range, where
    the additions of the code are exact: without [itemHeight], with an
    estimate and keys that differ from item to item, putting the height [H]
    in the cache under the key of item [i] gives row [i] the height [H],
    keeps the offsets of the rows up to [i], and moves every later row, and
    [totalHeight], by [H] minus the height row [i] had. *)
Theorem measurement_shifts_later_rows (props : Props) (est : Z → Z)
    (cache : gmap string Z) (i : nat) (H sT lH : Z) :
  validArrayLength (itemsCount props) →
  safeHeights (resolvedHeight props cache) (itemsCount props) →
  safeHeights
    (resolvedHeight props (<[getItemKey props (Z.of_nat i) := H]> cache))
    (itemsCount props) →
  itemHeight props = None →
  estimateItemHeight props = Some est →
  (i < itemsCount props)%nat →
  (∀ j, (j < itemsCount props)%nat →
        getItemKey props (Z.of_nat j) = getItemKey props (Z.of_nat i) →
        j = i) →
  ∃ r r' item,
    useMemoBody props cache sT lH = Ok r ∧
    useMemoBody props (<[getItemKey props (Z.of_nat i) := H]> cache) sT lH
      = Ok r' ∧
    allItems r !! i = Some item ∧
    totalHeight r' = totalHeight r + (H - height item) ∧
    ∀ j row, allItems r !! j = Some row →
      allItems r' !! j =
      Some {| key := key row; index := index row;
              height := if decide (j = i) then H else height row;
              offsetTop := offsetTop row +
                (if decide (i < j)%nat then H - height item else 0) |}.
Proof.
  intros _ _ _ Hi He Hlt Hinj.
  assert (Hsome : is_Some (itemHeight props) ∨
                  is_Some (estimateItemHeight props)) by (right; eauto).
  set (cache' := <[getItemKey props (Z.of_nat i) := H]> cache).
  set (h := resolvedHeight props cache).
  set (h' := resolvedHeight props cache').
  assert (Hother : ∀ j, (j < itemsCount props)%nat → j ≠ i →
            h' (Z.of_nat j) = h (Z.of_nat j)).
  { intros j Hj Hne. unfold h', cache'.
    rewrite resolvedHeight_insert by done.
    case_decide as Hk; [|done]. by apply Hinj in Hk. }
  assert (Hat : h' (Z.of_nat i) = h (Z.of_nat i) + (H - h (Z.of_nat i))).
  { unfold h', cache'. rewrite resolvedHeight_insert by done.
    case_decide; [lia | done]. }
  eexists _, _, (rowAt (getItemKey props) h i).
  split; [by apply useMemoBody_rangeCalc|].
  split; [by apply useMemoBody_rangeCalc|].
  fold h h'. rewrite !rangeCalc_allItems, !rangeCalc_totalHeight.
  split; [by apply rows_lookup|]. split.
  - rewrite (prefixSum_update h h' i (H - h (Z.of_nat i))); [|auto|done].
    rewrite decide_True by done. done.
  - intros j row [Hj ->]%rows_lookup. apply rows_lookup.
    split; [done|]. unfold rowAt. simpl. f_equal.
    + destruct (decide (j = i)) as [->|Hne]; [lia | symmetry; auto].
    + rewrite (prefixSum_update h h' i (H - h (Z.of_nat i)));
        [done| |done].
      intros k Hk Hne. apply Hother; [lia | done].
Qed.

(** Three rows estimated at 16 pixels; row 1 is measured at 50. *)
Lemma measurement_shifts_later_rows_witness :
  safeHeights (resolvedHeight (demoProps 3) ∅) 3 ∧
  ∃ r',
    useMemoBody (demoProps 3) {[ "1" := 50 ]} 0 600 = Ok r' ∧
    offsetTop <$> allItems r' = [0; 16; 66] ∧ totalHeight r' = 82.
Proof.
  assert (Hsafe : ∀ cache,
    (∀ k, (k ≤ 3)%nat →
       -1000 ≤ prefixSum (resolvedHeight (demoProps 3) cache) k ≤ 1000 ∧
       -1000 ≤ resolvedHeight (demoProps 3) cache (Z.of_nat k) ≤ 1000) →
    safeHeights (resolvedHeight (demoProps 3) cache) 3).
  { intros cache Hb k Hk. destruct (Hb k Hk) as [H1 H2].
    unfold safeInteger, MAX_SAFE_INTEGER. lia. }
  assert (H0 : safeHeights (resolvedHeight (demoProps 3) ∅) 3).
  { apply Hsafe. intros [|[|[|[|k]]]] Hk; try lia; by vm_compute. }
  assert (H1 : safeHeights
                 (resolvedHeight (demoProps 3)
                    (<[getItemKey (demoProps 3) (Z.of_nat 1) := 50]> ∅)) 3).
  { apply Hsafe. intros [|[|[|[|k]]]] Hk; try lia; by vm_compute. }
  split; [exact H0|].
  destruct (measurement_shifts_later_rows (demoProps 3) (λ _, 16) ∅
              1 50 0 600) as (r & r' & item & Hr & Hr' & Hitem & Ht & Hrows).
  - unfold validArrayLength. simpl. lia.
  - exact H0.
  - exact H1.
  - reflexivity.
  - reflexivity.
  - simpl. lia.
  - intros [|[|[|j]]] Hj Hk; simpl in Hj; try lia; try done;
      by vm_compute in Hk.
  - exists r'. split; [exact Hr'|].
    vm_compute in Hr. injection Hr as <-.
    vm_compute in Hitem. injection Hitem as <-.
    split; [|rewrite Ht; reflexivity].
    apply list_eq. intros [|[|[|j]]]; rewrite list_lookup_fmap.
    + by rewrite (Hrows 0%nat _ eq_refl).
    + by rewrite (Hrows 1%nat _ eq_refl).
    + by rewrite (Hrows 2%nat _ eq_refl).
    + vm_compute in Hr'. by injection Hr' as <-.
Defined.

(** ** The first render *)

Lemma render_succeeds props st :
  validateProps props = Ok () →
  is_Some (itemHeight props) ∨ is_Some (estimateItemHeight props) →
  render props st =
  Ok (rangeCalc (itemsCount props) (getItemKey props)
        (default DEFAULT_OVERSCAN (overscan props))
        (hs_scrollTop st) (hs_listHeight st)
        (resolvedHeight props (hs_measurementCache st)),
      {| hs_listHeight := hs_listHeight st; hs_scrollTop := hs_scrollTop st;
         hs_measurementCache := hs_measurementCache st;
         hs_latest :=
           useLatest (hs_latest st)
             {| ld_measurementCache := hs_measurementCache st;
                ld_getItemKey := getItemKey props;
                ld_allItems :=
                  rowAt (getItemKey props)
                    (resolvedHeight props (hs_measurementCache st))
                    <$> seq 0 (itemsCount props);
                ld_getScrollElement := getScrollElement props;
                ld_scrollTop := hs_scrollTop st |} |}).
Proof.
  intros Hv Hsome.
  rewrite <- (rangeCalc_allItems _ _
                (default DEFAULT_OVERSCAN (overscan props))
                (hs_scrollTop st) (hs_listHeight st)).
  unfold render. rewrite Hv. cbn [mbind Exc_bind].
  by rewrite useMemoBody_rangeCalc.
Qed.

Lemma useMemoBody_mount props :
  validateProps props = Ok () →
  is_Some (itemHeight props) ∨ is_Some (estimateItemHeight props) →
  render props initialState =
  Ok (rangeCalc (itemsCount props) (getItemKey props)
        (default DEFAULT_OVERSCAN (overscan props)) 0 0
        (resolvedHeight props ∅),
      {| hs_listHeight := 0; hs_scrollTop := 0; hs_measurementCache := ∅;
         hs_latest := Some (mountLatest props) |}).
Proof. intros Hv Hsome. by rewrite render_succeeds. Qed.

(** X7. For an [itemsCount] that [Array(itemsCount)] accepts: the first
    render throws the configuration error when there is no item and no
    estimate, a [TypeError] when there are items and neither height prop,
    and otherwise returns the range computed over the unmeasured rows with
    scroll offset 0 and viewport height 0, and stores that data in the
    ref. *)
Theorem mount_outcome (props : Props) :
  validArrayLength (itemsCount props) →
  render props initialState =
  if bool_decide (itemsCount props = 0%nat)
     && bool_decide (estimateItemHeight props = None)
  then Throw ConfigError
  else if bool_decide (itemHeight props = None)
          && bool_decide (estimateItemHeight props = None)
  then Throw TypeError
  else
    Ok (rangeCalc (itemsCount props) (getItemKey props)
          (default DEFAULT_OVERSCAN (overscan props)) 0 0
          (resolvedHeight props ∅),
        {| hs_listHeight := 0; hs_scrollTop := 0; hs_measurementCache := ∅;
           hs_latest := Some (mountLatest props) |}).
Proof.
  intros _.
  assert (Hok : validateProps props = Ok () →
    is_Some (itemHeight props) ∨ is_Some (estimateItemHeight props) →
    render props initialState =
    Ok (rangeCalc (itemsCount props) (getItemKey props)
          (default DEFAULT_OVERSCAN (overscan props)) 0 0
          (resolvedHeight props ∅),
        {| hs_listHeight := 0; hs_scrollTop := 0; hs_measurementCache := ∅;
           hs_latest := Some (mountLatest props) |}))
    by apply useMemoBody_mount.
  unfold validateProps in Hok.
  destruct (bool_decide_reflect (itemsCount props = 0%nat)) as [H0|H0];
    destruct (bool_decide_reflect (estimateItemHeight props = None))
      as [He|He];
    destruct (bool_decide_reflect (itemHeight props = None)) as [Hi|Hi];
    cbn [andb] in *.
  - rewrite render_without_heights by done. by rewrite bool_decide_eq_true_2.
  - unfold render, validateProps.
    by rewrite bool_decide_eq_true_2, bool_decide_eq_true_2.
  - apply Hok; [done|]. right. by apply not_eq_None_Some.
  - apply Hok; [done|]. right. by apply not_eq_None_Some.
  - rewrite render_without_heights by done. by rewrite bool_decide_eq_false_2.
  - apply Hok; [done|]. left. by apply not_eq_None_Some.
  - apply Hok; [done|]. right. by apply not_eq_None_Some.
  - apply Hok; [done|]. right. by apply not_eq_None_Some.
Qed.

(** A fixed-height list without items and without an estimate is turned
    down; the demo list mounts with the range [[0, 2]]. *)
Lemma mount_outcome_witness :
  validArrayLength (itemsCount (fixedProps 0)) ∧
  render (fixedProps 0) initialState = Throw ConfigError ∧
  ∃ out st, render (demoProps 3) initialState = Ok (out, st) ∧
            startIndex out = 0 ∧ endIndex out = 2.
Proof.
  assert (H0 : validArrayLength (itemsCount (fixedProps 0)))
    by (unfold validArrayLength; simpl; lia).
  assert (H3 : validArrayLength (itemsCount (demoProps 3)))
    by (unfold validArrayLength; simpl; lia).
  split; [exact H0|]. split.
  - rewrite (mount_outcome (fixedProps 0) H0). reflexivity.
  - eexists _, _. split; [rewrite (mount_outcome (demoProps 3) H3);
                           reflexivity|].
    split; reflexivity.
Defined.

(** ** What a call of the measurement callback can do *)

(** For a [getItemKey] that never throws the two forms of the callback
    agree. *)
Lemma measureElementInner_total_key g latest el entry :
  measureElementInner g latest el entry =
  measureElementInnerK g (λ i, Ok (ld_getItemKey latest i))
    (ld_measurementCache latest) (ld_allItems latest) (ld_scrollTop latest)
    el entry.
Proof. done. Qed.

(** X8. A call of [measureElementInner] issues nothing (no element, or
    [getItemKey] throws, and then the call ends with that exception); or
    only [unobserve], for a detached element; or only [console.error], for
    an index that does not parse; or only [observe]; or [observe], then at
    most one [scrollBy(0, delta)], then one [setMeasurementCache].  The
    write is always last, under the key [getItemKey] returned for the
    parsed index and with the height just read; the scroll adjustment
    occurs only with a scroll element, for a row above the scroll offset
    of the ref, and its [delta] is that height minus the row's height in
    the ref, which is not 0.  A call that has issued [scrollBy] or
    [setMeasurementCache] does not throw. *)
Theorem measureElementInner_effects (g : bool) (getKey : Z → Exc Key)
    (cache : gmap string Z) (rows : list Row) (sT : Z)
    (el : option Element) (entry : option ResizeObserverEntry) :
  ∃ effects err,
    measureElementInnerK g getKey cache rows sT el entry = (effects, err) ∧
    ((effects = [] ∧ err = None ∧ el = None) ∨
     ∃ e, el = Some e ∧
       ((effects = [Unobserve (el_id e)] ∧ err = None ∧
         isConnected e = false) ∨
        (effects = [ConsoleError] ∧ err = None ∧
         parseInt (default "" (data_index e)) = None) ∨
        (∃ i exn, parseInt (default "" (data_index e)) = Some i ∧
           getKey i = Throw exn ∧ effects = [] ∧ err = Some exn) ∨
        (effects = [Observe (el_id e)] ∧
         (err = None ∨ err = Some TypeError)) ∨
        ∃ i k item,
          parseInt (default "" (data_index e)) = Some i ∧
          getKey i = Ok k ∧
          arrayGet rows i = Some item ∧
          err = None ∧
          let H := default (rect_height e) (entry ≫= blockSize) in
          let write := SetMeasurementCache k H in
          effects = [Observe (el_id e); write] ∨
          (effects = [Observe (el_id e); ScrollBy 0 (H - height item); write]
           ∧ H ≠ height item ∧ offsetTop item < sT ∧ g = true))).
Proof.
  unfold measureElementInnerK.
  destruct el as [e|]; [|eexists _, _; split; [done|]; by left].
  destruct (isConnected e) eqn:Hc; simpl.
  2:{ eexists _, _. split; [done|]. right. exists e. split; [done|].
      by left. }
  destruct (parseInt _) as [i|] eqn:Hp.
  2:{ eexists _, _. split; [done|]. right. exists e. split; [done|].
      right. by left. }
  destruct (getKey i) as [k|exn] eqn:Hk.
  2:{ eexists _, _. split; [done|]. right. exists e. split; [done|].
      right. right. left. by exists i, exn. }
  destruct (_ && _).
  { eexists _, _. split; [done|]. right. exists e. split; [done|].
    right. right. right. left. eauto. }
  destruct (bool_decide _).
  { eexists _, _. split; [done|]. right. exists e. split; [done|].
    right. right. right. left. eauto. }
  destruct (arrayGet _ i) as [[ik ii ih io]|] eqn:Hitem.
  2:{ eexists _, _. split; [done|]. right. exists e. split; [done|].
      right. right. right. left. eauto. }
  eexists _, _. split; [done|]. right. exists e. split; [done|].
  right. right. right. right. eexists i, k, _.
  split; [done|]. split; [done|]. split; [done|]. split; [done|]. simpl.
  destruct (Z.eqb_spec (default (rect_height e) (entry ≫= blockSize) - ih) 0)
    as [Hd|Hd]; simpl; [by left|].
  rewrite Z.gtb_ltb.
  destruct (Z.ltb_spec io sT); [|by left].
  destruct g; [|by left].
  right. split; [done|]. split; [lia|]. done.
Qed.

(** X9. For a connected element whose index parses but addresses no row of
    the ref (negative, or at or beyond their number): when [getItemKey]
    throws for this index, as the one of the demo application does, the
    call ends with that exception and has issued nothing; when it returns
    a key and neither guard stops the call, the element is observed and the
    call throws a [TypeError].  Nothing is written and nothing is scrolled
    in either case. *)
Theorem measureElementInner_no_such_row (g : bool) (getKey : Z → Exc Key)
    (cache : gmap string Z) (rows : list Row) (sT : Z)
    (e : Element) (entry : option ResizeObserverEntry) (i : Z) :
  isConnected e = true →
  parseInt (default "" (data_index e)) = Some i →
  i < 0 ∨ Z.of_nat (length rows) ≤ i →
  match getKey i with
  | Throw exn =>
      measureElementInnerK g getKey cache rows sT (Some e) entry
        = ([], Some exn)
  | Ok k =>
      is_Some entry ∨ cache !! k = None →
      cache !! k ≠ Some (default (rect_height e) (entry ≫= blockSize)) →
      measureElementInnerK g getKey cache rows sT (Some e) entry
        = ([Observe (el_id e)], Some TypeError)
  end.
Proof.
  intros Hc Hp Hrange.
  unfold measureElementInnerK. rewrite Hc, Hp. simpl.
  destruct (getKey i) as [k|exn]; [|done].
  intros Hinit Hne.
  replace (negb (bool_decide (is_Some entry)) && _) with false.
  2:{ destruct Hinit as [He|Hn].
      - by rewrite (bool_decide_eq_true_2 _ He).
      - rewrite Hn, andb_comm. rewrite bool_decide_eq_false_2; [done|].
        by intros [? [=]]. }
  rewrite (bool_decide_eq_false_2 _ Hne).
  replace (arrayGet rows i) with (@None Row); [done|].
  symmetry. unfold arrayGet.
  destruct (Z.ltb_spec i 0); [done|].
  apply lookup_ge_None. lia.
Qed.

(** A row element tagged 7 while there are three rows: with the key
    function of the demo application nothing is issued; with a key function
    that returns, the element is observed before the call throws. *)
Lemma measureElementInner_no_such_row_witness :
  let items := [mkItem "a" "x"; mkItem "b" "y"; mkItem "c" "z"] in
  let rows := allItems (rangeCalc 3 (appGetItemKey items) 3 0 0 (λ _, 16)) in
  measureElementInnerK true (appGetItemKeyExc items) ∅ rows 0
    (Some (rowElement 7 50)) None
  = ([], Some TypeError) ∧
  measureElementInnerK true (λ i, Ok (keyOf i)) ∅ rows 0
    (Some (rowElement 7 50)) None
  = ([Observe 7], Some TypeError).
Proof.
  intros items rows. split.
  - apply (measureElementInner_no_such_row true (appGetItemKeyExc items)
             ∅ rows 0 (rowElement 7 50) None 7);
      [reflexivity | reflexivity | right; by vm_compute].
  - apply (measureElementInner_no_such_row true (λ i, Ok (keyOf i))
             ∅ rows 0 (rowElement 7 50) None 7);
      [reflexivity | reflexivity | right; by vm_compute
      | right; reflexivity | by vm_compute].
Defined.

(** ** Runs of the hook *)

Lemma render_ok_inv props st out st' :
  render props st = Ok (out, st') → validateProps props = Ok ().
Proof.
  unfold render. destruct (validateProps props) as [[]|]; [done|].
  by simpl.
Qed.

Lemma run_mounted props events t o s :
  run props events = Ok (t, o, s) →
  validateProps props = Ok () ∧
  (is_Some (itemHeight props) ∨ is_Some (estimateItemHeight props)).
Proof.
  unfold run.
  destruct (render props initialState) as [[out0 st0]|] eqn:Hr; [|done].
  intros _. split; [by eapply render_ok_inv | by eapply render_mount_heights].
Qed.

(** The result a render returns for the state [st]. *)
Lemma rendered props st :
  validateProps props = Ok () →
  is_Some (itemHeight props) ∨ is_Some (estimateItemHeight props) →
  ∃ st',
    render props st =
    Ok (rangeCalc (itemsCount props) (getItemKey props)
          (default DEFAULT_OVERSCAN (overscan props))
          (hs_scrollTop st) (hs_listHeight st)
          (resolvedHeight props (hs_measurementCache st)), st') ∧
    hs_listHeight st' = hs_listHeight st ∧
    hs_scrollTop st' = hs_scrollTop st ∧
    hs_measurementCache st' = hs_measurementCache st ∧
    hs_latest st' = useLatest (hs_latest st)
      {| ld_measurementCache := hs_measurementCache st;
         ld_getItemKey := getItemKey props;
         ld_allItems :=
           rowAt (getItemKey props)
             (resolvedHeight props (hs_measurementCache st))
             <$> seq 0 (itemsCount props);
         ld_getScrollElement := getScrollElement props;
         ld_scrollTop := hs_scrollTop st |}.
Proof.
  intros Hv Hsome. eexists. split; [by apply render_succeeds|done].
Qed.

Lemma render_consistent props st :
  validateProps props = Ok () →
  is_Some (itemHeight props) ∨ is_Some (estimateItemHeight props) →
  hs_latest st = Some (mountLatest props) →
  ∃ out st',
    render props st = Ok (out, st') ∧ consistent props out st' ∧
    hs_listHeight st' = hs_listHeight st ∧
    hs_scrollTop st' = hs_scrollTop st ∧
    hs_measurementCache st' = hs_measurementCache st.
Proof.
  intros Hv Hsome Hl.
  destruct (rendered props st Hv Hsome) as (st' & Hr & HlH & HsT & Hc & Hl').
  eexists _, st'. split; [exact Hr|]. split; [|done].
  split; [by rewrite HlH, HsT, Hc|].
  by rewrite Hl', Hl.
Qed.

Lemma runEvents_consistent props :
  validateProps props = Ok () →
  is_Some (itemHeight props) ∨ is_Some (estimateItemHeight props) →
  ∀ events out st,
    hs_latest st = Some (mountLatest props) →
    ∃ t o s,
      runEvents props out st events = Ok (t, o, s) ∧
      length t = length events ∧
      (events = [] ∨ consistent props o s).
Proof.
  intros Hv Hsome. induction events as [|ev events IH]; intros out st Hl.
  - eexists _, _, _. split; [done|]. split; [done | by left].
  - cbn [runEvents].
    destruct (dispatch props st ev) as [effects st1] eqn:Hd.
    assert (Hl1 : hs_latest st1 = Some (mountLatest props)).
    { pose proof (dispatch_latest props st ev) as Hdl.
      rewrite Hd in Hdl. simpl in Hdl. by rewrite Hdl. }
    destruct (render_consistent props st1 Hv Hsome Hl1)
      as (out2 & st2 & Hr & Hcons & _).
    rewrite Hr. cbn [mbind Exc_bind].
    destruct (IH out2 st2 (proj2 Hcons)) as (t & o & s & Hrun & Hlen & Hc).
    rewrite Hrun. cbn [mbind Exc_bind mret Exc_ret].
    eexists _, _, _. split; [done|]. split; [simpl; by rewrite Hlen|].
    right. destruct Hc as [->|Hc]; [|done].
    simpl in Hrun. by injection Hrun as _ <- <-.
Qed.

Lemma run_consistent props events t o s :
  run props events = Ok (t, o, s) →
  consistent props o s ∧ length t = length events.
Proof.
  intros Hrun. destruct (run_mounted _ _ _ _ _ Hrun) as [Hv Hsome].
  unfold run in Hrun. rewrite useMemoBody_mount in Hrun by done.
  cbn [mbind Exc_bind] in Hrun.
  destruct (runEvents_consistent props Hv Hsome events
              (rangeCalc (itemsCount props) (getItemKey props)
                 (default DEFAULT_OVERSCAN (overscan props)) 0 0
                 (resolvedHeight props ∅))
              {| hs_listHeight := 0; hs_scrollTop := 0;
                 hs_measurementCache := ∅;
                 hs_latest := Some (mountLatest props) |} eq_refl)
    as (t' & o' & s' & Hrun' & Hlen & Hc).
  rewrite Hrun' in Hrun. injection Hrun as <- <- <-.
  split; [|done]. destruct Hc as [->|Hc]; [|done].
  simpl in Hrun'. injection Hrun' as _ <- <-. by split.
Qed.

Lemma runEvents_app props ev1 ev2 : ∀ out st,
  runEvents props out st (ev1 ++ ev2) =
  '(t1, o1, s1) ← runEvents props out st ev1;
  '(t2, o2, s2) ← runEvents props o1 s1 ev2;
  mret (t1 ++ t2, o2, s2).
Proof.
  induction ev1 as [|ev ev1 IH]; intros out st.
  - simpl. by destruct (runEvents props out st ev2) as [[[? ?] ?]|].
  - cbn [app runEvents].
    destruct (dispatch props st ev) as [effects st1].
    destruct (render props st1) as [[out2 st2]|]; [|done].
    cbn [mbind Exc_bind]. rewrite IH.
    destruct (runEvents props out2 st2 ev1) as [[[t1 o1] s1]|]; [|done].
    cbn [mbind Exc_bind mret Exc_ret].
    by destruct (runEvents props o1 s1 ev2) as [[[t2 o2] s2]|].
Qed.

Lemma run_app props ev1 ev2 t1 o1 s1 :
  run props ev1 = Ok (t1, o1, s1) →
  run props (ev1 ++ ev2) =
  '(t2, o2, s2) ← runEvents props o1 s1 ev2;
  mret (t1 ++ t2, o2, s2).
Proof.
  unfold run.
  destruct (render props initialState) as [[out0 st0]|]; [|done].
  cbn [mbind Exc_bind]. rewrite runEvents_app. by intros ->.
Qed.

(** X10. Once the first render has succeeded no sequence of scroll, resize
    and measurement events makes a later render throw: the run returns one
    effect list per event, and its last result is the range computed from
    the final scroll offset, viewport height and cache. *)
Theorem run_total (props : Props) (events : list Event)
    (out0 : MemoResult) (st0 : HookState) :
  render props initialState = Ok (out0, st0) →
  ∃ t o s,
    run props events = Ok (t, o, s) ∧
    length t = length events ∧
    o = rangeCalc (itemsCount props) (getItemKey props)
          (default DEFAULT_OVERSCAN (overscan props))
          (hs_scrollTop s) (hs_listHeight s)
          (resolvedHeight props (hs_measurementCache s)).
Proof.
  intros Hr.
  assert (Hv := render_ok_inv _ _ _ _ Hr).
  assert (Hsome := render_mount_heights _ _ _ Hr).
  unfold run. rewrite Hr. cbn [mbind Exc_bind].
  rewrite useMemoBody_mount in Hr by done. injection Hr as <- <-.
  destruct (runEvents_consistent props Hv Hsome events
              (rangeCalc (itemsCount props) (getItemKey props)
                 (default DEFAULT_OVERSCAN (overscan props)) 0 0
                 (resolvedHeight props ∅))
              {| hs_listHeight := 0; hs_scrollTop := 0;
                 hs_measurementCache := ∅;
                 hs_latest := Some (mountLatest props) |} eq_refl)
    as (t & o & s & Hrun & Hlen & Hc).
  exists t, o, s. split; [done|]. split; [done|].
  destruct Hc as [->|[Hc _]]; [|done].
  simpl in Hrun. by injection Hrun as _ <- <-.
Qed.

Lemma run_total_witness :
  ∃ t o s,
    run (demoProps 4)
      [ViewportResize 40; ScrollTo 20; MeasureElement (Some (rowElement 1 30))]
      = Ok (t, o, s) ∧
    length t = 3%nat ∧ totalHeight o = 78.
Proof.
  destruct (run_total (demoProps 4)
              [ViewportResize 40; ScrollTo 20;
               MeasureElement (Some (rowElement 1 30))] _ _ eq_refl)
    as (t & o & s & Hrun & Hlen & Ho).
  exists t, o, s. split; [exact Hrun|]. split; [exact Hlen|].
  vm_compute in Hrun. injection Hrun as <- <- <-. reflexivity.
Defined.

(** The ref after a scroll and a measurement in a three-row list. *)
Lemma run_latest_frozen_witness :
  ∃ trace out st,
    run (demoProps 3) [ScrollTo 40; MeasureElement (Some (rowElement 1 50))]
      = Ok (trace, out, st) ∧
    hs_scrollTop st = 40 ∧
    ld_scrollTop <$> hs_latest st = Some 0 ∧
    Forall (Forall (λ e, isScrollAdjust e = false)) trace.
Proof.
  eexists _, _, _. split; [vm_compute; reflexivity|].
  split; [reflexivity|].
  edestruct (run_latest_frozen (demoProps 3)
               [ScrollTo 40; MeasureElement (Some (rowElement 1 50))])
    as (l & Hl & HsT & _ & Hno); [vm_compute; reflexivity|].
  split.
  - rewrite Hl. simpl. by rewrite HsT.
  - apply Hno. intros i. by vm_compute.
Defined.

Lemma measure_commits props st el entry (i : nat) :
  hs_latest st = Some (mountLatest props) →
  isConnected el = true →
  parseInt (default "" (data_index el)) = Some (Z.of_nat i) →
  (i < itemsCount props)%nat →
  ∃ effects st1,
    dispatch props st (measurementEvent el entry) = (effects, st1) ∧
    hs_listHeight st1 = hs_listHeight st ∧
    hs_scrollTop st1 = hs_scrollTop st ∧
    hs_latest st1 = hs_latest st ∧
    hs_measurementCache st1 =
      <[getItemKey props (Z.of_nat i) :=
          default (rect_height el) (entry ≫= blockSize)]>
        (hs_measurementCache st).
Proof.
  intros Hl Hc Hp Hi.
  assert (Hd : dispatch props st (measurementEvent el entry)
               = measure props st (Some el) entry) by by destruct entry.
  rewrite Hd. unfold measure. rewrite Hl.
  destruct (measureElementInner (getScrollElement props)
              (mountLatest props) (Some el) entry)
    as [effects err] eqn:Heq.
  cbn [fst].
  assert (Hitem : arrayGet (ld_allItems (mountLatest props)) (Z.of_nat i)
                  = Some (rowAt (getItemKey props) (resolvedHeight props ∅) i)).
  { unfold arrayGet. destruct (Z.ltb_spec (Z.of_nat i) 0); [lia|].
    rewrite Nat2Z.id. simpl. by apply rows_lookup. }
  (* with the empty cache of the ref neither guard stops the call *)
  assert (Hfull : ∃ adjust,
    effects = Observe (el_id el) :: adjust ++
      [SetMeasurementCache (getItemKey props (Z.of_nat i))
         (default (rect_height el) (entry ≫= blockSize))] ∧
    Forall (λ e, isCacheWrite e = false) adjust).
  { unfold measureElementInner in Heq. rewrite Hc, Hp in Heq.
    cbn [negb] in Heq. simpl ld_measurementCache in Heq.
    rewrite lookup_empty in Heq.
    rewrite (bool_decide_eq_false_2 (is_Some None)) in Heq
      by (by intros [? [=]]).
    rewrite andb_false_r in Heq.
    rewrite (bool_decide_eq_false_2 (None = Some _)) in Heq by done.
    rewrite Hitem in Heq. cbn [rowAt] in Heq.
    injection Heq as <- _. eexists. split; [done|].
    destruct (_ && _); [|constructor].
    destruct (getScrollElement props); by repeat constructor. }
  destruct Hfull as (adjust & -> & Hadj). clear Heq.
  eexists _, _. split; [done|].
  cbn [foldl]. change (commitEffect st (Observe (el_id el))) with st.
  rewrite foldl_app. cbn [foldl].
  assert (Hsame : foldl commitEffect st adjust = st).
  { clear -Hadj. induction Hadj as [|e adjust He _ IH]; [done|].
    simpl. destruct e; try done. }
  rewrite Hsame. by destruct st.
Qed.

(** X11. In a run without [itemHeight], a measurement of a connected element
    tagged with the index of an item is always committed: the cache then
    holds the height read under that item's key, and row [i] of the next
    render has this height. *)
Theorem measured_height_is_read_back (props : Props) (events : list Event)
    (trace : list (list Effect)) (out : MemoResult) (st : HookState)
    (el : Element) (entry : option ResizeObserverEntry) (i : nat) :
  run props events = Ok (trace, out, st) →
  itemHeight props = None →
  isConnected el = true →
  parseInt (default "" (data_index el)) = Some (Z.of_nat i) →
  (i < itemsCount props)%nat →
  let H := default (rect_height el) (entry ≫= blockSize) in
  ∃ effects out' st',
    run props (events ++ [measurementEvent el entry])
      = Ok (trace ++ [effects], out', st') ∧
    hs_measurementCache st' =
      <[getItemKey props (Z.of_nat i) := H]> (hs_measurementCache st) ∧
    ∃ row, allItems out' !! i = Some row ∧ height row = H.
Proof.
  intros Hrun Hih Hc Hp Hi H.
  destruct (run_mounted _ _ _ _ _ Hrun) as [Hv Hsome].
  destruct (run_consistent _ _ _ _ _ Hrun) as [[_ Hl] _].
  rewrite (run_app _ _ _ _ _ _ Hrun). cbn [runEvents].
  destruct (measure_commits props st el entry i Hl Hc Hp Hi)
    as (effects & st1 & Hd & HlH & HsT & Hl1 & Hcache).
  rewrite Hd.
  destruct (rendered props st1 Hv Hsome)
    as (st2 & Hr & _ & _ & Hc2 & _).
  rewrite Hr. cbn [mbind Exc_bind mret Exc_ret].
  eexists _, _, _. split; [done|]. split; [by rewrite Hc2|].
  rewrite rangeCalc_allItems. eexists. split; [by apply rows_lookup|].
  simpl. rewrite Hcache. unfold resolvedHeight.
  by rewrite Hih, lookup_insert_eq.
Qed.

Lemma measured_height_is_read_back_witness :
  ∃ effects out' st',
    run (demoProps 3) [ScrollTo 20; MeasureElement (Some (rowElement 2 41))]
      = Ok ([[]; effects], out', st') ∧
    hs_measurementCache st' !! "2" = Some 41 ∧
    ∃ row, allItems out' !! 2%nat = Some row ∧ height row = 41.
Proof.
  destruct (run (demoProps 3) [ScrollTo 20]) as [[[t o] s]|] eqn:Hrun0;
    [|by vm_compute in Hrun0].
  destruct (measured_height_is_read_back (demoProps 3) [ScrollTo 20]
              t o s (rowElement 2 41) None 2 Hrun0)
    as (effects & out' & st' & Hrun & Hcache & Hrow).
  - reflexivity.
  - reflexivity.
  - reflexivity.
  - simpl. lia.
  - vm_compute in Hrun0. injection Hrun0 as <- _ _.
    exists effects, out', st'. split; [exact Hrun|]. split; [|exact Hrow].
    rewrite Hcache. apply lookup_insert_eq.
Defined.

Lemma commit_cache_write st effects k :
  Forall (λ e, ∀ h, e ≠ SetMeasurementCache k h) effects →
  hs_measurementCache (foldl commitEffect st effects) !! k
    = hs_measurementCache st !! k.
Proof.
  intros Hno. revert st.
  induction Hno as [|e effects He _ IH]; intros st; [done|].
  simpl. rewrite IH. destruct e; try done. simpl.
  apply lookup_insert_ne. intros ->. by eapply He.
Qed.

Lemma commit_cache_grows st effects k :
  is_Some (hs_measurementCache st !! k) →
  is_Some (hs_measurementCache (foldl commitEffect st effects) !! k).
Proof.
  revert st. induction effects as [|e effects IH]; intros st Hk; [done|].
  simpl. apply IH. destruct e; try done. simpl.
  rewrite lookup_insert. case_decide; [eauto | done].
Qed.

Lemma dispatch_cache props st ev :
  hs_measurementCache (dispatch props st ev).2 =
  hs_measurementCache (foldl commitEffect st (dispatch props st ev).1).
Proof.
  destruct ev; cbn [dispatch]; try (by destruct (getScrollElement props));
    unfold measure; by destruct (hs_latest st).
Qed.

Lemma render_cache props st out st' :
  render props st = Ok (out, st') →
  hs_measurementCache st' = hs_measurementCache st.
Proof.
  unfold render. destruct (validateProps props); [|done]. simpl.
  destruct (useMemoBody _ _ _ _); [|done]. simpl. by intros [= <- <-].
Qed.

Lemma runEvents_cache props k events : ∀ out st t o s,
  runEvents props out st events = Ok (t, o, s) →
  (is_Some (hs_measurementCache st !! k) →
   is_Some (hs_measurementCache s !! k)) ∧
  (Forall (Forall (λ e, ∀ h, e ≠ SetMeasurementCache k h)) t →
   hs_measurementCache s !! k = hs_measurementCache st !! k).
Proof.
  induction events as [|ev events IH]; intros out st t o s; simpl.
  - by intros [= <- _ <-].
  - runEvents_step props st ev events.
    intros [= <- _ <-].
    match goal with
    | Hrun' : runEvents _ _ _ _ = Ok _ |- _ =>
        destruct (IH _ _ _ _ _ Hrun') as [IHg IHw]
    end.
    pose proof (dispatch_cache props st ev) as Hdc.
    rewrite Hd in Hdc. cbn [fst snd] in Hdc.
    apply render_cache in Hr. split.
    + intros Hk. apply IHg. rewrite Hr, Hdc. by apply commit_cache_grows.
    + intros [Hnow Hlater]%Forall_cons.
      rewrite IHw, Hr, Hdc by done. by apply commit_cache_write.
Qed.

(** X12. Along a run the cache only grows: a key that is in the cache stays
    there, and the height under a key changes only when an event of the run
    issues [setMeasurementCache] for this key. *)
Theorem cache_entries_persist (props : Props) (ev1 ev2 : list Event)
    (t1 t2 : list (list Effect)) (o1 o2 : MemoResult) (s1 s2 : HookState)
    (k : Key) :
  run props ev1 = Ok (t1, o1, s1) →
  run props (ev1 ++ ev2) = Ok (t2, o2, s2) →
  (is_Some (hs_measurementCache s1 !! k) →
   is_Some (hs_measurementCache s2 !! k)) ∧
  (Forall (Forall (λ e, ∀ h, e ≠ SetMeasurementCache k h))
     (drop (length t1) t2) →
   hs_measurementCache s2 !! k = hs_measurementCache s1 !! k).
Proof.
  intros Hrun1 Hrun2. rewrite (run_app _ _ _ _ _ _ Hrun1) in Hrun2.
  destruct (runEvents props o1 s1 ev2) as [[[t o] s]|] eqn:Hrun; [|done].
  cbn [mbind Exc_bind mret Exc_ret] in Hrun2. injection Hrun2 as <- <- <-.
  rewrite drop_app_length. by eapply runEvents_cache.
Qed.

Lemma cache_entries_persist_witness :
  ∃ t2 o2 s2,
    run (demoProps 3)
      ([MeasureElement (Some (rowElement 0 30))] ++
       [ScrollTo 10; MeasureElement (Some (rowElement 1 50))])
      = Ok (t2, o2, s2) ∧
    hs_measurementCache s2 !! "0" = Some 30.
Proof.
  destruct (run (demoProps 3) [MeasureElement (Some (rowElement 0 30))])
    as [[[t1 o1] s1]|] eqn:Hrun1; [|by vm_compute in Hrun1].
  destruct (run (demoProps 3)
              ([MeasureElement (Some (rowElement 0 30))] ++
               [ScrollTo 10; MeasureElement (Some (rowElement 1 50))]))
    as [[[t2 o2] s2]|] eqn:Hrun2; [|by vm_compute in Hrun2].
  exists t2, o2, s2. split; [done|].
  destruct (cache_entries_persist _ _ _ _ _ _ _ _ _ "0" Hrun1 Hrun2)
    as [_ Hsame].
  rewrite Hsame.
  - vm_compute in Hrun1. by injection Hrun1 as _ _ <-.
  - vm_compute in Hrun1. injection Hrun1 as <- _ _.
    vm_compute in Hrun2. injection Hrun2 as <- _ _.
    repeat constructor; intros h [=].
Defined.

(** X13. A scroll or a viewport resize issues no effect and changes neither
    the cache nor the rows nor [totalHeight]: only the range moves. *)
Theorem view_events_keep_geometry (props : Props) (events : list Event)
    (t : list (list Effect)) (o : MemoResult) (s : HookState) (ev : Event) :
  run props events = Ok (t, o, s) →
  (∃ top, ev = ScrollTo top) ∨ (∃ h, ev = ViewportResize h) →
  ∃ o' s',
    run props (events ++ [ev]) = Ok (t ++ [[]], o', s') ∧
    allItems o' = allItems o ∧ totalHeight o' = totalHeight o ∧
    hs_measurementCache s' = hs_measurementCache s.
Proof.
  intros Hrun Hev.
  destruct (run_mounted _ _ _ _ _ Hrun) as [Hv Hsome].
  destruct (run_consistent _ _ _ _ _ Hrun) as [[-> Hl] _].
  rewrite (run_app _ _ _ _ _ _ Hrun). cbn [runEvents].
  assert (Hd : ∃ st1, dispatch props s ev = ([], st1) ∧
                      hs_measurementCache st1 = hs_measurementCache s).
  { destruct Hev as [[top ->]|[h ->]]; cbn [dispatch];
      destruct (getScrollElement props); eauto. }
  destruct Hd as (st1 & -> & Hc1).
  destruct (rendered props st1 Hv Hsome) as (st2 & Hr & _ & _ & Hc2 & _).
  rewrite Hr. cbn [mbind Exc_bind mret Exc_ret].
  eexists _, _. split; [done|].
  rewrite !rangeCalc_allItems, !rangeCalc_totalHeight, Hc2, Hc1. done.
Qed.

Lemma view_events_keep_geometry_witness :
  ∃ o' s',
    run (demoProps 3) ([ViewportResize 30] ++ [ScrollTo 12])
      = Ok ([[]] ++ [[]], o', s') ∧
    totalHeight o' = 48.
Proof.
  destruct (run (demoProps 3) [ViewportResize 30])
    as [[[t o] s]|] eqn:Hrun; [|by vm_compute in Hrun].
  destruct (view_events_keep_geometry (demoProps 3) [ViewportResize 30]
              t o s (ScrollTo 12) Hrun) as (o' & s' & Hrun' & _ & Ht & _).
  - left. by exists 12.
  - vm_compute in Hrun. injection Hrun as <- <- <-.
    exists o', s'. split; [exact Hrun'|]. rewrite Ht. reflexivity.
Defined.

(** ** The scrolling flag and its timer *)

Lemma no_timer (id : nat) : ¬ is_Some ((∅ : gmap nat Z) !! id).
Proof. rewrite lookup_empty. by intros [? [=]]. Qed.

Lemma timers_single s id :
  scrollingInv s →
  clearPending (timeoutId s) (timers s) !! id = None.
Proof.
  intros [Hpend _]. unfold clearPending.
  destruct (timeoutId s) as [i|] eqn:Hi.
  - destruct (decide (i = id)) as [->|Hne]; [apply lookup_delete_eq|].
    rewrite lookup_delete_ne by done.
    destruct (timers s !! id) eqn:Hid; [|done].
    destruct (Hpend id) as [Heq _]; [eauto|]. congruence.
  - destruct (timers s !! id) eqn:Hid; [|done].
    destruct (Hpend id) as [Heq _]; [eauto|]. congruence.
Qed.

Lemma timers_cleared s :
  scrollingInv s → clearPending (timeoutId s) (timers s) = ∅.
Proof.
  intros Hinv. apply map_eq. intros id.
  by rewrite timers_single, lookup_empty.
Qed.

Lemma not_listening_no_timer s :
  scrollingInv s → listening s = false → timers s = ∅.
Proof.
  intros [Hpend _] Hl. apply map_eq. intros id. rewrite lookup_empty.
  destruct (timers s !! id) eqn:Hid; [|done].
  destruct (Hpend id) as (_ & Hl' & _); [eauto|]. congruence.
Qed.

Lemma scrollingCleanup_inv s :
  scrollingInv s →
  scrollingInv (scrollingCleanup s) ∧ timers (scrollingCleanup s) = ∅ ∧
  listening (scrollingCleanup s) = false.
Proof.
  intros Hinv. unfold scrollingCleanup.
  destruct (listening s) eqn:Hl.
  - rewrite timers_cleared by done. split; [|done].
    split; simpl; [by intros id ?%no_timer | apply Hinv].
  - split; [done|]. split; [by apply not_listening_no_timer | done].
Qed.

Lemma scrollingStep_inv s ev :
  scrollingInv s → scrollingInv (scrollingStep s ev).
Proof.
  intros Hinv. destruct ev as [props| |id|]; cbn [scrollingStep].
  - destruct (scrollingCleanup_inv s Hinv) as (Hc & Ht & _).
    unfold scrollingEffect. destruct (getScrollElement props); [|done].
    split; simpl; [|done]. rewrite Ht. by intros id ?%no_timer.
  - unfold scrollingHandleScroll. destruct (listening s) eqn:Hl; [|done].
    split; simpl.
    + intros id. rewrite timers_cleared by done.
      rewrite lookup_insert. case_decide as Hid; [by subst|].
      by intros ?%no_timer.
    + intros id [= <-]. lia.
  - unfold scrollingTimeout. destruct (timers s !! id) eqn:Hid; [|done].
    destruct Hinv as [Hpend Hlt]. split; simpl; [|done].
    intros id' [d Hd]. exfalso.
    destruct (decide (id' = id)) as [->|Hne].
    + by rewrite lookup_delete_eq in Hd.
    + rewrite lookup_delete_ne in Hd by done.
      destruct (Hpend id) as [H1 _]; [eauto|].
      destruct (Hpend id') as [H2 _]; [eauto|]. congruence.
  - by apply scrollingCleanup_inv.
Qed.

Lemma foldl_scrolling_inv events : ∀ s,
  scrollingInv s → scrollingInv (foldl scrollingStep s events).
Proof.
  induction events as [|ev events IH]; intros s Hs; [done|].
  simpl. apply IH. by apply scrollingStep_inv.
Qed.

Lemma scrollingRun_inv events : scrollingInv (scrollingRun events).
Proof.
  apply foldl_scrolling_inv.
  split; simpl; [by intros id ?%no_timer | done].
Qed.

Lemma scrolls_keep_listening n : ∀ s,
  listening s = true →
  listening (foldl scrollingStep s (replicate n SScroll)) = true ∧
  delay (foldl scrollingStep s (replicate n SScroll)) = delay s.
Proof.
  induction n as [|n IH]; intros s Hl; [done|].
  cbn [replicate foldl scrollingStep].
  assert (Hl1 : listening (scrollingHandleScroll s) = true)
    by (unfold scrollingHandleScroll; by rewrite Hl).
  assert (Hd1 : delay (scrollingHandleScroll s) = delay s)
    by (unfold scrollingHandleScroll; by rewrite Hl).
  destruct (IH _ Hl1) as [H1 H2]. by rewrite H1, H2, Hd1.
Qed.

Lemma effect_then_scrolls events props scrolls :
  getScrollElement props = true →
  let s :=
    scrollingRun (events ++ SEffect props :: replicate scrolls SScroll) in
  listening s = true ∧
  delay s = default DEFAULT_SCROLLING_DELAY (scrollingDelay props).
Proof.
  intros Hg. unfold scrollingRun. rewrite foldl_app.
  cbn [foldl scrollingStep].
  set (s0 := scrollingEffect props _).
  assert (Hl : listening s0 = true)
    by (unfold s0, scrollingEffect; by rewrite Hg).
  assert (Hd : delay s0 = default DEFAULT_SCROLLING_DELAY
                            (scrollingDelay props))
    by (unfold s0, scrollingEffect; by rewrite Hg).
  destruct (scrolls_keep_listening scrolls s0 Hl) as [H1 H2].
  by rewrite H1, H2.
Qed.

(** X14. Whatever the effect runs, scrolls, timer expirations and cleanups
    that occurred: at most one timer is pending, it is the one [timeoutId]
    holds, and [isScrolling] is true while it is pending. *)
Theorem scrolling_one_timer (events : list ScrollingEvent) :
  let s := scrollingRun events in
  (∀ id1 id2, is_Some (timers s !! id1) → is_Some (timers s !! id2) →
     id1 = id2) ∧
  (∀ id, is_Some (timers s !! id) →
     timeoutId s = Some id ∧ isScrolling s = true).
Proof.
  intros s. destruct (scrollingRun_inv events) as [Hpend _]. fold s in Hpend.
  split.
  - intros id1 id2 [H1 _]%Hpend [H2 _]%Hpend. congruence.
  - intros id (H1 & _ & H2)%Hpend. done.
Qed.

(** X15. A scroll event, once the effect has run with a scroll element,
    raises [isScrolling] and leaves exactly one pending timer, a new one set
    with [scrollingDelay] (150 by default); the timer that was pending
    before is cancelled, its expiration changes nothing; the expiration of
    the new one lowers the flag and leaves no timer. *)
Theorem scroll_reschedules (events : list ScrollingEvent) (props : Props)
    (scrolls : nat) :
  getScrollElement props = true →
  let s :=
    scrollingRun (events ++ SEffect props :: replicate scrolls SScroll) in
  let s1 := scrollingStep s SScroll in
  isScrolling s1 = true ∧
  timers s1 =
    {[ nextTimer s :=
         default DEFAULT_SCROLLING_DELAY (scrollingDelay props) ]} ∧
  (∀ id, is_Some (timers s !! id) → scrollingStep s1 (STimeout id) = s1) ∧
  isScrolling (scrollingStep s1 (STimeout (nextTimer s))) = false ∧
  timers (scrollingStep s1 (STimeout (nextTimer s))) = ∅.
Proof.
  intros Hg s s1.
  destruct (effect_then_scrolls events props scrolls Hg) as [Hl Hd].
  fold s in Hl, Hd.
  pose proof (scrollingRun_inv
                (events ++ SEffect props :: replicate scrolls SScroll))
    as Hinv. fold s in Hinv.
  assert (Hs1 : s1 = mkScrolling true (Some (nextTimer s)) (delay s) true
                       {[ nextTimer s := delay s ]} (S (nextTimer s))).
  { unfold s1. cbn [scrollingStep]. unfold scrollingHandleScroll.
    rewrite Hl, timers_cleared by done. by rewrite insert_empty. }
  rewrite Hs1, Hd. split; [done|]. split; [done|]. split; [|split].
  - intros id Hid. cbn [scrollingStep]. unfold scrollingTimeout. simpl.
    destruct Hinv as [Hpend Hlt].
    destruct (Hpend id Hid) as [Hid' _]. apply Hlt in Hid'.
    rewrite lookup_singleton_ne by lia. done.
  - cbn [scrollingStep]. unfold scrollingTimeout. simpl.
    by rewrite lookup_singleton_eq.
  - cbn [scrollingStep]. unfold scrollingTimeout. simpl.
    rewrite lookup_singleton_eq. simpl. apply delete_singleton_eq.
Qed.

(** The demo: the effect runs, two scrolls, a third one. *)
Lemma scroll_reschedules_witness :
  let s := scrollingRun ([] ++ SEffect (demoProps 3) :: replicate 2 SScroll) in
  getScrollElement (demoProps 3) = true ∧
  timers (scrollingStep s SScroll) = {[ 3%nat := 150 ]} ∧
  scrollingStep (scrollingStep s SScroll) (STimeout 2)
    = scrollingStep s SScroll.
Proof.
  intros s. split; [reflexivity|].
  destruct (scroll_reschedules [] (demoProps 3) 2 eq_refl)
    as (_ & Ht & Hold & _).
  split; [exact Ht|].
  apply Hold. by exists 150.
Defined.

(** X16. The cleanup of the effect clears the pending timer and detaches
    the listener; after it neither scroll events nor timer expirations
    change anything until the effect runs again, so a flag that was up at
    the cleanup stays up. *)
Theorem cleanup_freezes_flag (events later : list ScrollingEvent) :
  let s := scrollingStep (scrollingRun events) SUnmount in
  Forall (λ ev, isEffectRun ev = false) later →
  timers s = ∅ ∧ listening s = false ∧
  isScrolling s = isScrolling (scrollingRun events) ∧
  foldl scrollingStep s later = s.
Proof.
  intros s Hlater.
  destruct (scrollingCleanup_inv _ (scrollingRun_inv events))
    as (Hinv & Ht & Hl).
  change (scrollingCleanup (scrollingRun events)) with s in Hinv, Ht, Hl.
  split; [done|]. split; [done|]. split.
  - unfold s. cbn [scrollingStep]. unfold scrollingCleanup.
    by destruct (listening (scrollingRun events)).
  - clear Hinv. induction Hlater as [|ev later Hev _ IH]; [done|].
    cbn [foldl].
    replace (scrollingStep s ev) with s; [done|].
    destruct ev as [props| |id|]; [done| | |]; cbn [scrollingStep].
    + unfold scrollingHandleScroll. by rewrite Hl.
    + unfold scrollingTimeout. by rewrite Ht, lookup_empty.
    + unfold scrollingCleanup. by rewrite Hl.
Qed.

(** Unmounting right after a scroll: the flag is up and no timer is left to
    lower it. *)
Lemma cleanup_freezes_flag_witness :
  let s := scrollingStep (scrollingRun [SEffect (demoProps 3); SScroll])
             SUnmount in
  isScrolling s = true ∧ timers s = ∅ ∧
  foldl scrollingStep s [STimeout 1; SScroll; STimeout 2] = s.
Proof.
  intros s.
  destruct (cleanup_freezes_flag [SEffect (demoProps 3); SScroll]
              [STimeout 1; SScroll; STimeout 2])
    as (Ht & _ & Hf & Hsame); [by repeat constructor|].
  split; [|split; [exact Ht | exact Hsame]].
  fold s in Hf. rewrite Hf. reflexivity.
Defined.

(** ** The demo application: reversing the list *)

Lemma appGetItemKey_reverse listItems (i : nat) :
  (i < length listItems)%nat →
  appGetItemKey (reverseClick listItems)
    (Z.of_nat (length listItems - 1 - i))
  = appGetItemKey listItems (Z.of_nat i).
Proof.
  intros Hi. unfold appGetItemKey, arrayGet, reverseClick.
  destruct (Z.ltb_spec (Z.of_nat (length listItems - 1 - i)) 0); [lia|].
  destruct (Z.ltb_spec (Z.of_nat i) 0); [lia|].
  rewrite !Nat2Z.id, reverse_lookup by lia.
  by replace (length listItems - S (length listItems - 1 - i))%nat
    with i by lia.
Qed.

(** X17. Reversing the list of the demo application keeps the measured
    heights with their items: for every cache, the row at position
    [n - 1 - i] of the reversed list has the key and the height of row [i]
    of the original list.  The keys are those [listItems[index]!.id]
    yields: the loop reads it below [listItems.length] only, where it does
    not throw. *)
Theorem reverse_keeps_heights (listItems : list Item) (scrollElement : bool)
    (cache : gmap string Z) (sT lH : Z) :
  let n := length listItems in
  validArrayLength n →
  ∃ r r',
    useMemoBody (appProps listItems scrollElement) cache sT lH = Ok r ∧
    useMemoBody (appProps (reverseClick listItems) scrollElement) cache sT lH
      = Ok r' ∧
    length (allItems r) = n ∧ length (allItems r') = n ∧
    ∀ i row, allItems r !! i = Some row →
      appGetItemKeyExc listItems (Z.of_nat i) = Ok (key row) ∧
      ∃ row', allItems r' !! (n - 1 - i)%nat = Some row' ∧
              appGetItemKeyExc (reverseClick listItems)
                (Z.of_nat (n - 1 - i)) = Ok (key row') ∧
              key row' = key row ∧ height row' = height row.
Proof.
  intros n _.
  assert (Hn : length (reverseClick listItems) = n)
    by apply length_reverse.
  assert (Hh : ∀ i, (i < n)%nat →
    resolvedHeight (appProps (reverseClick listItems) scrollElement) cache
      (Z.of_nat (n - 1 - i))
    = resolvedHeight (appProps listItems scrollElement) cache (Z.of_nat i)).
  { intros i Hi. unfold resolvedHeight. simpl.
    by rewrite appGetItemKey_reverse. }
  assert (Hexc : ∀ l i, (i < length l)%nat →
    appGetItemKeyExc l (Z.of_nat i) = Ok (appGetItemKey l (Z.of_nat i))).
  { intros l i Hi. unfold appGetItemKeyExc, appGetItemKey, arrayGet.
    destruct (Z.ltb_spec (Z.of_nat i) 0); [lia|]. rewrite Nat2Z.id.
    destruct (lookup_lt_is_Some_2 l i Hi) as [item ->]. done. }
  eexists _, _.
  split; [apply useMemoBody_rangeCalc; right; by eexists|].
  split; [apply useMemoBody_rangeCalc; right; by eexists|].
  rewrite !rangeCalc_allItems.
  cbn [itemsCount getItemKey appProps]. rewrite Hn. fold n.
  split; [by rewrite length_fmap, length_seq|].
  split; [by rewrite length_fmap, length_seq|].
  intros i row [Hi ->]%rows_lookup. split; [by apply Hexc|].
  eexists. split; [apply rows_lookup; split; [lia | done]|].
  split; [apply Hexc; rewrite Hn; lia|].
  simpl. split; [by apply appGetItemKey_reverse | by apply Hh].
Qed.

Lemma reverse_keeps_heights_witness :
  let items := [mkItem "a" "x"; mkItem "b" "y"; mkItem "c" "z"] in
  validArrayLength (length items) ∧
  ∃ r',
    useMemoBody (appProps (reverseClick items) true) {[ "a" := 70 ]} 0 0
      = Ok r' ∧
    (λ row, (key row, height row)) <$> allItems r'
      = [("c", 16); ("b", 16); ("a", 70)].
Proof.
  intros items.
  assert (Hlen : validArrayLength (length items))
    by (unfold validArrayLength; simpl; lia).
  split; [exact Hlen|].
  destruct (reverse_keeps_heights items true {[ "a" := 70 ]} 0 0 Hlen)
    as (r & r' & Hr & Hr' & _).
  exists r'. split; [exact Hr'|].
  vm_compute in Hr'. by injection Hr' as <-.
Defined.

(** ** A batch of resize notifications *)

Lemma render_state_fixed props st out st' l :
  hs_latest st = Some l →
  render props st = Ok (out, st') → st' = st.
Proof.
  intros Hl. unfold render. destruct (validateProps props); [|done]. simpl.
  destruct (useMemoBody _ _ _ _); [|done]. simpl.
  intros [= _ <-]. rewrite Hl. simpl. destruct st. simpl in *. by subst.
Qed.

Lemma measureCall_measure props st element entry :
  measure props st element entry =
  ((measureCall props st element entry).1.1,
   (measureCall props st element entry).2).
Proof.
  unfold measure, measureCall. destruct (hs_latest st); [|done].
  by destruct (measureElementInner _ _ _ _).
Qed.

Lemma measureCall_throws props st entry :
  hs_latest st = Some (mountLatest props) →
  (measureCall props st (Some entry.1) (Some entry.2)).1.2 = None ↔
  callThrows props entry = false.
Proof.
  intros Hl. unfold measureCall, callThrows. rewrite Hl.
  destruct (measureElementInner _ _ _ _) as [effects [e|]]; simpl;
    by split.
Qed.

Lemma resize_batch_runEvents props :
  validateProps props = Ok () →
  is_Some (itemHeight props) ∨ is_Some (estimateItemHeight props) →
  ∀ entries out st,
    hs_latest st = Some (mountLatest props) →
    ∃ t o,
      runEvents props out st
        ((λ en, ItemResize en.1 en.2) <$> handledEntries props entries)
        = Ok (t, o, (itemsResizeObserverCallback props st entries).2) ∧
      concat t = (itemsResizeObserverCallback props st entries).1.1 ∧
      ((itemsResizeObserverCallback props st entries).1.2 = None →
       handledEntries props entries = entries).
Proof.
  intros Hv Hsome. induction entries as [|entry entries IH]; intros out st Hl.
  - eexists _, _. split; [done|]. by split.
  - cbn [handledEntries itemsResizeObserverCallback].
    pose proof (measureCall_throws props st entry Hl) as Hthrows.
    pose proof (measureCall_measure props st (Some entry.1) (Some entry.2))
      as Hm.
    destruct (measureCall props st (Some entry.1) (Some entry.2))
      as [[effects err] st1] eqn:Hcall.
    cbn [fst snd] in Hthrows, Hm.
    assert (Hl1 : hs_latest st1 = Some (mountLatest props)).
    { pose proof (dispatch_latest props st (ItemResize entry.1 entry.2))
        as Hdl.
      cbn [dispatch] in Hdl. rewrite Hm in Hdl. simpl in Hdl.
      by rewrite Hdl. }
    destruct (render_consistent props st1 Hv Hsome Hl1)
      as (out2 & st2 & Hr & _).
    rewrite (render_state_fixed _ _ _ _ _ Hl1 Hr) in Hr.
    destruct err as [e|].
    + assert (Ht : callThrows props entry = true).
      { destruct (callThrows props entry); [done|].
        by destruct Hthrows as [_ Hth]; specialize (Hth eq_refl). }
      rewrite Ht. cbn [fmap list_fmap runEvents dispatch].
      rewrite Hm, Hr. cbn [mbind Exc_bind mret Exc_ret].
      eexists _, _. split; [done|]. simpl. by rewrite app_nil_r.
    + rewrite (proj1 Hthrows eq_refl).
      cbn [fmap list_fmap runEvents dispatch].
      rewrite Hm, Hr. cbn [mbind Exc_bind].
      destruct (IH out2 st1 Hl1) as (t & o & Hrun & Heff & Hall).
      change (list_fmap _ _ ?f (handledEntries props entries))
        with (f <$> handledEntries props entries).
      rewrite Hrun. cbn [mbind Exc_bind mret Exc_ret].
      destruct (itemsResizeObserverCallback props st1 entries)
        as [[effects' err'] st'].
      cbn [fst snd] in *.
      eexists _, _. split; [done|]. split; [by rewrite <- Heff|].
      intros ->. by rewrite Hall.
Qed.

(** X18. A call of the [itemsResizeObserver] callback on a batch of
    entries handles them in order and stops at the first entry whose call
    throws.  In a run it issues the same effects, in the same order, and
    leaves the same state as the entries up to and including that one,
    delivered one notification at a time with a render after each; when no
    call throws these are all the entries. *)
Theorem resize_batch_as_single_events (props : Props) (events : list Event)
    (t : list (list Effect)) (o : MemoResult) (s : HookState)
    (entries : list (Element * ResizeObserverEntry)) :
  run props events = Ok (t, o, s) →
  ∃ t' o',
    run props
      (events ++
       ((λ en, ItemResize en.1 en.2) <$> handledEntries props entries))
      = Ok (t ++ t', o', (itemsResizeObserverCallback props s entries).2) ∧
    concat t' = (itemsResizeObserverCallback props s entries).1.1 ∧
    ((itemsResizeObserverCallback props s entries).1.2 = None →
     handledEntries props entries = entries).
Proof.
  intros Hrun.
  destruct (run_mounted _ _ _ _ _ Hrun) as [Hv Hsome].
  destruct (run_consistent _ _ _ _ _ Hrun) as [[_ Hl] _].
  rewrite (run_app _ _ _ _ _ _ Hrun).
  destruct (resize_batch_runEvents props Hv Hsome entries o s Hl)
    as (t' & o' & Hrun' & Heff & Hall).
  rewrite Hrun'. cbn [mbind Exc_bind mret Exc_ret].
  by eexists _, _.
Qed.

(** Three entries; the second is tagged 9 in a list of three rows, so its
    call throws and the third entry is not handled. *)
Lemma resize_batch_as_single_events_witness :
  let entries := [(rowElement 0 30, mkEntry (Some 31));
                  (rowElement 9 40, mkEntry None);
                  (rowElement 1 40, mkEntry None)] in
  ∃ t o s,
    run (demoProps 3) [ScrollTo 5] = Ok (t, o, s) ∧
    (itemsResizeObserverCallback (demoProps 3) s entries).1
      = ([Observe 0; SetMeasurementCache "0" 31; Observe 9],
         Some TypeError) ∧
    handledEntries (demoProps 3) entries
      = [(rowElement 0 30, mkEntry (Some 31));
         (rowElement 9 40, mkEntry None)].
Proof.
  intros entries.
  destruct (run (demoProps 3) [ScrollTo 5]) as [[[t o] s]|] eqn:Hrun;
    [|by vm_compute in Hrun].
  exists t, o, s. split; [done|].
  destruct (resize_batch_as_single_events (demoProps 3) [ScrollTo 5]
              t o s entries Hrun) as (t' & o' & Hrun' & Heff & _).
  split; [|by vm_compute].
  vm_compute in Hrun. injection Hrun as <- <- <-.
  by vm_compute.
Defined.

(** Row 2 of the ref is 16 pixels high at offset 32 and the ref holds the
    scroll offset 40: a resize to 26 pixels scrolls by 10, then commits. *)
Lemma measureElementInner_compensates_witness :
  measureElementInner true
    {| ld_measurementCache := ∅; ld_getItemKey := keyOf;
       ld_allItems := allItems (rangeCalc 3 keyOf 3 40 20 (λ _, 16));
       ld_getScrollElement := true; ld_scrollTop := 40 |}
    (Some (rowElement 2 16)) (Some (mkEntry (Some 26)))
  = ([Observe 2; ScrollBy 0 10; SetMeasurementCache "2" 26], None).
Proof.
  rewrite (measureElementInner_compensates _ _ _ _ 2 (mkRow "2" 2 16 32) 26);
    try reflexivity; try done.
  - left. by eexists.
Defined.
